(** * NiimbotBluetoothClient: session and command correlation

    A shallow embedding of [src/client/bluetooth_impl.ts].  The client is
    single threaded and cooperative: every [await] is a suspension point,
    and whatever runs between two suspension points runs atomically.  The
    embedding therefore is a transition system.  Its state is the client
    object together with the calls that are suspended, its actions are
    what the event loop can run next: a call on the public surface, the
    continuation of a suspended call, a transport event, a timer. *)

From Stdlib Require Import ZArith Strings.Byte Lia.
From stdpp Require Import base tactics option list strings.

Set Default Proof Using "Type".

(** ** Transport objects (Web Bluetooth) *)

Record BluetoothCharacteristicProperties := {
  notify : bool;
  writeWithoutResponse : bool
}.

Record BluetoothRemoteGATTCharacteristic := {
  characteristic_uuid : string;
  properties : BluetoothCharacteristicProperties
}.

Record BluetoothRemoteGATTService := {
  uuid : string;
  getCharacteristics : list BluetoothRemoteGATTCharacteristic
}.

Record BluetoothRemoteGATTServer := {
  getPrimaryServices : list BluetoothRemoteGATTService
}.

Record BluetoothDevice := {
  deviceId : string;
  name : option string;
  gatt : option BluetoothRemoteGATTServer
}.

#[global] Instance byte_eq_dec : EqDecision byte := Byte.byte_eq_dec.
#[global] Instance properties_eq_dec : EqDecision BluetoothCharacteristicProperties.
Proof. solve_decision. Defined.
#[global] Instance characteristic_eq_dec : EqDecision BluetoothRemoteGATTCharacteristic.
Proof. solve_decision. Defined.
#[global] Instance service_eq_dec : EqDecision BluetoothRemoteGATTService.
Proof. solve_decision. Defined.
#[global] Instance server_eq_dec : EqDecision BluetoothRemoteGATTServer.
Proof. solve_decision. Defined.
#[global] Instance device_eq_dec : EqDecision BluetoothDevice.
Proof. solve_decision. Defined.

(** ** Packets, printer info, errors *)

(** The fields of [NiimbotPacket] that the client reads. *)
Record NiimbotPacket := {
  command : Z;
  data : list byte;
  oneWay : bool;
  validResponseIds : list Z
}.

(** [this.info]: the client reads [connectResult]; the other attributes
    are stored by the negotiation code of the abstract client. *)
Record PrinterInfo := {
  connectResult : option Z;
  attributes : list (string * string)
}.

(** [this.info = {}] *)
Definition emptyInfo : PrinterInfo :=
  {| connectResult := None; attributes := [] |}.

Record ConnectionInfo := {
  deviceName : option string;
  result : Z
}.

Inductive Error :=
  | JsError (message : string)
  | JsTypeError.

(** What the client takes from the modules it imports ([../packets],
    [../utils]); their code is outside this file, so they are the
    parameters of the development. *)
Class Collaborators := {
  (** [ResponseCommandId.Invalid] *)
  ResponseCommandId_Invalid : Z;
  (** [n in ResponseCommandId] *)
  inResponseCommandId : Z -> bool;
  (** [ConnectResult.FirmwareErrors] *)
  ConnectResult_FirmwareErrors : Z;
  (** [new NiimbotPacket(command, data)] *)
  newNiimbotPacket : Z -> list byte -> NiimbotPacket;
  (** [packet.toBytes()] *)
  toBytes : NiimbotPacket -> list byte;
  (** [NiimbotPacket.fromBytes(data)]; [None] when it throws *)
  fromBytes : list byte -> option NiimbotPacket;
  (** [Utils.bufToHex(buf, separator)] *)
  bufToHex : list Z -> string -> string;
  (** [Utils.numberToHex(n)] *)
  numberToHex : Z -> string
}.

(** ** Events and effects *)

Inductive Event :=
  | ConnectEvent (i : ConnectionInfo)
  | DisconnectEvent
  | PacketReceivedEvent (p : NiimbotPacket)
  | RawPacketReceivedEvent (bytes : list byte)
  | RawPacketSentEvent (bytes : list byte).

(** The name under which [dispatchTypedEvent] publishes an event. *)
Definition eventName (e : Event) : string :=
  match e with
  | ConnectEvent _ => "connect"
  | DisconnectEvent => "disconnect"
  | PacketReceivedEvent _ => "packetreceived"
  | RawPacketReceivedEvent _ => "rawpacketreceived"
  | RawPacketSentEvent _ => "rawpacketsent"
  end.

(** What the client does to the outside, in the order it does it. *)
Inductive Effect :=
  | Dispatch (e : Event)
  | ConsoleLog (s : string)
  | ConsoleWarn (s : string)
  | ConsoleError (s : string)
  | ConsoleErrorObject (e : Error)
  | StopHeartbeat
  | RequestDevice
  | GattConnect (d : BluetoothDevice)
  | GattDisconnect (g : BluetoothRemoteGATTServer)
  | StartNotifications (c : BluetoothRemoteGATTCharacteristic)
  | Sleep (ms : Z)
  | WriteValueWithoutResponse (c : BluetoothRemoteGATTCharacteristic) (bytes : list byte).

(** ** Calls in flight *)

Inductive Call :=
  | SendPacketWaitResponse (packet : NiimbotPacket) (timeoutMs : option Z)
  | SendRaw (bytes : list byte) (force : bool)
  | Connect.

Inductive Outcome :=
  | ReturnedPacket (p : NiimbotPacket)
  | ReturnedVoid
  | ReturnedInfo (i : ConnectionInfo)
  | Thrown (e : Error).

(** Where a call is suspended. *)
Inductive Phase :=
  | Queued            (* in the queue of the mutex *)
  | Acquired          (* the mutex is acquired, the callback has not run *)
  | Sleeping          (* await Utils.sleep(this.packetIntervalMs) *)
  | Writing           (* await this.channel.writeValueWithoutResponse(data) *)
  | Awaiting          (* the promise of lines 152-172 is pending *)
  | RequestingDevice  (* await navigator.bluetooth.requestDevice(options) *)
  | GattConnecting (d : BluetoothDevice) (g : BluetoothRemoteGATTServer)
  | Finding (d : BluetoothDevice) (g : BluetoothRemoteGATTServer)
  | StartingNotifications (d : BluetoothDevice) (g : BluetoothRemoteGATTServer)
                          (c : BluetoothRemoteGATTCharacteristic)
  | Negotiating (d : BluetoothDevice)
  | Settled (o : Outcome).

Record Task := {
  call : Call;
  phase : Phase
}.

(** ** The client *)

(** [Mutex] of async-mutex. *)
Record Mutex := {
  locked : bool;
  queue : list nat
}.

Record Client := {
  gattServer : option BluetoothRemoteGATTServer;
  channel : option BluetoothRemoteGATTCharacteristic;
  info : PrinterInfo;
  packetIntervalMs : Z;
  mutex : Mutex;
  (** the "packetreceived" listeners of pending exchanges, by call *)
  packetListeners : list nat;
  (** the timers of pending exchanges: call and deadline *)
  timers : list (nat * Z);
  (** the "gattserverdisconnected" listeners: the device of each, in the
      order they were added *)
  disconnectListeners : list BluetoothDevice;
  (** characteristics that carry the "characteristicvaluechanged" listener *)
  valueListeners : list BluetoothRemoteGATTCharacteristic;
  tasks : list Task;
  clock : Z;
  trace : list Effect
}.

Definition newClient (interval : Z) : Client :=
  {| gattServer := None; channel := None; info := emptyInfo;
     packetIntervalMs := interval;
     mutex := {| locked := false; queue := [] |};
     packetListeners := []; timers := [];
     disconnectListeners := []; valueListeners := [];
     tasks := []; clock := 0; trace := [] |}.

(** Field updates. *)
Definition withSession (g : option BluetoothRemoteGATTServer)
    (c : option BluetoothRemoteGATTCharacteristic) (i : PrinterInfo) (s : Client) : Client :=
  {| gattServer := g; channel := c; info := i;
     packetIntervalMs := packetIntervalMs s; mutex := mutex s;
     packetListeners := packetListeners s; timers := timers s;
     disconnectListeners := disconnectListeners s; valueListeners := valueListeners s;
     tasks := tasks s; clock := clock s; trace := trace s |}.

Definition withMutex (m : Mutex) (s : Client) : Client :=
  {| gattServer := gattServer s; channel := channel s; info := info s;
     packetIntervalMs := packetIntervalMs s; mutex := m;
     packetListeners := packetListeners s; timers := timers s;
     disconnectListeners := disconnectListeners s; valueListeners := valueListeners s;
     tasks := tasks s; clock := clock s; trace := trace s |}.

Definition withPacketListeners (l : list nat) (s : Client) : Client :=
  {| gattServer := gattServer s; channel := channel s; info := info s;
     packetIntervalMs := packetIntervalMs s; mutex := mutex s;
     packetListeners := l; timers := timers s;
     disconnectListeners := disconnectListeners s; valueListeners := valueListeners s;
     tasks := tasks s; clock := clock s; trace := trace s |}.

Definition withTimers (l : list (nat * Z)) (s : Client) : Client :=
  {| gattServer := gattServer s; channel := channel s; info := info s;
     packetIntervalMs := packetIntervalMs s; mutex := mutex s;
     packetListeners := packetListeners s; timers := l;
     disconnectListeners := disconnectListeners s; valueListeners := valueListeners s;
     tasks := tasks s; clock := clock s; trace := trace s |}.

Definition withDisconnectListeners (l : list BluetoothDevice) (s : Client) : Client :=
  {| gattServer := gattServer s; channel := channel s; info := info s;
     packetIntervalMs := packetIntervalMs s; mutex := mutex s;
     packetListeners := packetListeners s; timers := timers s;
     disconnectListeners := l; valueListeners := valueListeners s;
     tasks := tasks s; clock := clock s; trace := trace s |}.

Definition withValueListeners (l : list BluetoothRemoteGATTCharacteristic) (s : Client) : Client :=
  {| gattServer := gattServer s; channel := channel s; info := info s;
     packetIntervalMs := packetIntervalMs s; mutex := mutex s;
     packetListeners := packetListeners s; timers := timers s;
     disconnectListeners := disconnectListeners s; valueListeners := l;
     tasks := tasks s; clock := clock s; trace := trace s |}.

Definition withTasks (l : list Task) (s : Client) : Client :=
  {| gattServer := gattServer s; channel := channel s; info := info s;
     packetIntervalMs := packetIntervalMs s; mutex := mutex s;
     packetListeners := packetListeners s; timers := timers s;
     disconnectListeners := disconnectListeners s; valueListeners := valueListeners s;
     tasks := l; clock := clock s; trace := trace s |}.

Definition withClock (now : Z) (s : Client) : Client :=
  {| gattServer := gattServer s; channel := channel s; info := info s;
     packetIntervalMs := packetIntervalMs s; mutex := mutex s;
     packetListeners := packetListeners s; timers := timers s;
     disconnectListeners := disconnectListeners s; valueListeners := valueListeners s;
     tasks := tasks s; clock := now; trace := trace s |}.

(** The client does [es], after what it did before. *)
Definition emit (es : list Effect) (s : Client) : Client :=
  {| gattServer := gattServer s; channel := channel s; info := info s;
     packetIntervalMs := packetIntervalMs s; mutex := mutex s;
     packetListeners := packetListeners s; timers := timers s;
     disconnectListeners := disconnectListeners s; valueListeners := valueListeners s;
     tasks := tasks s; clock := clock s; trace := trace s ++ es |}.

Definition withPhase (ph : Phase) (k : Task) : Task :=
  {| call := call k; phase := ph |}.

Definition setPhase (t : nat) (ph : Phase) (s : Client) : Client :=
  withTasks (alter (withPhase ph) t (tasks s)) s.

(** A new call; its number is [length (tasks s)]. *)
Definition spawn (c : Call) (ph : Phase) (s : Client) : Client :=
  withTasks (tasks s ++ [{| call := c; phase := ph |}]) s.

(** ** Channel selection (lines 104-123) *)

Fixpoint firstSuitable (characteristics : list BluetoothRemoteGATTCharacteristic)
    : option BluetoothRemoteGATTCharacteristic :=
  match characteristics with
  | [] => None
  | c :: rest =>
      if notify (properties c) && writeWithoutResponse (properties c)
      then Some c
      else firstSuitable rest
  end.

Fixpoint findInServices (services : list BluetoothRemoteGATTService)
    : option BluetoothRemoteGATTCharacteristic :=
  match services with
  | [] => None
  | service :: rest =>
      if (String.length (uuid service) <? 5)%nat
      then findInServices rest
      else match firstSuitable (getCharacteristics service) with
           | Some c => Some c
           | None => findInServices rest
           end
  end.

Definition findSuitableBluetoothCharacteristic (g : BluetoothRemoteGATTServer)
    : option BluetoothRemoteGATTCharacteristic :=
  findInServices (getPrimaryServices g).

(** The selection in the words of the specification: the first endpoint
    with both capabilities among the services that are long enough. *)
Definition suitable (c : BluetoothRemoteGATTCharacteristic) : bool :=
  notify (properties c) && writeWithoutResponse (properties c).


(** ** Session (lines 125-136, 46-52) *)

Definition defined {A} (o : option A) : bool :=
  match o with Some _ => true | None => false end.

Definition isConnected (s : Client) : bool :=
  defined (gattServer s) && defined (channel s).

Definition disconnect (s : Client) : Client :=
  let s1 := emit [StopHeartbeat] s in
  let s2 := match gattServer s1 with
            | Some g => emit [GattDisconnect g] s1
            | None => s1
            end in
  withSession None None emptyInfo s2.

Fixpoint removeFirst (d : BluetoothDevice) (l : list BluetoothDevice) : list BluetoothDevice :=
  match l with
  | [] => []
  | d' :: rest => if decide (d' = d) then rest else d' :: removeFirst d rest
  end.

Definition disconnectListener (d : BluetoothDevice) (s : Client) : Client :=
  let s1 := withSession None None emptyInfo s in
  let s2 := emit [Dispatch DisconnectEvent] s1 in
  withDisconnectListeners (removeFirst d (disconnectListeners s2)) s2.

(** The "gattserverdisconnected" event of device [d].  Every [connect()]
    that reached line 54 with [d] added a listener of its own, and the
    event runs each of them, in the order they were added: [registered]
    is the list of listeners as it is when the event is dispatched. *)
Fixpoint dispatchGattServerDisconnected (d : BluetoothDevice)
    (registered : list BluetoothDevice) (s : Client) : Client :=
  match registered with
  | [] => s
  | d' :: rest =>
      dispatchGattServerDisconnected d rest
        (if decide (d' = d) then disconnectListener d s else s)
  end.

(** ** The mutex *)

(** Modelled from the spec: the [Mutex] of the async-mutex package, which
    the client imports.  Section 4.3: callers queue in FIFO arrival order,
    one critical section runs at a time, and the lock is released when the
    section returns or fails. *)
Definition acquire (t : nat) (s : Client) : Client :=
  if locked (mutex s)
  then withMutex {| locked := true; queue := queue (mutex s) ++ [t] |} (setPhase t Queued s)
  else withMutex {| locked := true; queue := queue (mutex s) |} (setPhase t Acquired s).

(** Modelled from the spec: the release of the async-mutex [Mutex], which
    hands the lock to the oldest waiter (section 4.3). *)
Definition release (s : Client) : Client :=
  match queue (mutex s) with
  | [] => withMutex {| locked := false; queue := [] |} s
  | t :: q => setPhase t Acquired (withMutex {| locked := true; queue := q |} s)
  end.

Definition usesMutex (c : Call) : bool :=
  match c with
  | SendPacketWaitResponse _ _ => true
  | SendRaw _ force => negb force
  | Connect => false
  end.

(** The call of [k] returns or throws; when it runs under [runExclusive],
    the mutex is released on the way out. *)
Definition settle (t : nat) (k : Task) (o : Outcome) (s : Client) : Client :=
  let s' := setPhase t (Settled o) s in
  if usesMutex (call k) then release s' else s'.

(** [resolve] or [reject] of the promise of lines 152-172: a promise
    settles once. *)
Definition settlePromise (t : nat) (k : Task) (o : Outcome) (s : Client) : Client :=
  match phase k with
  | Awaiting => settle t k o s
  | _ => s
  end.

Section Client.
Context `{Collaborators}.

(** ** Sending (lines 176-191) *)

(** Modelled from the spec: [sendPacket] of the abstract client, which is
    outside this file; it is [sendRaw(packet.toBytes(), force)] (sections
    4.3 and 4.4: the exchange transmits the packet's bytes and bypasses the
    serializer).  The bytes a call writes: *)
Definition bytesOf (c : Call) : list byte :=
  match c with
  | SendPacketWaitResponse packet _ => toBytes packet
  | SendRaw bytes _ => bytes
  | Connect => []
  end.

(** [send], up to its first [await]. *)
Definition sendCheck (t : nat) (k : Task) (s : Client) : Client :=
  match channel s with
  | None => settle t k (Thrown (JsError "Channel is closed")) s
  | Some _ => setPhase t Sleeping (emit [Sleep (packetIntervalMs s)] s)
  end.

(** [send], from the end of the sleep to the write.  [this.channel] is
    read again: a call on [undefined] is a TypeError. *)
Definition sendWrite (t : nat) (k : Task) (s : Client) : Client :=
  match channel s with
  | None => settle t k (Thrown JsTypeError) s
  | Some c => setPhase t Writing (emit [WriteValueWithoutResponse c (bytesOf (call k))] s)
  end.

(** [timeoutMs ?? 1000] *)
Definition timeoutOf (timeoutMs : option Z) : Z := default 1000%Z timeoutMs.

(** The delay of [setTimeout].  The browser takes it as a 32-bit signed
    integer: the number wraps around at 2^32, and a negative delay counts
    as 0. *)
Definition toInt32 (z : Z) : Z := ((z + 2 ^ 31) mod 2 ^ 32 - 2 ^ 31)%Z.

Definition setTimeoutDelay (ms : Z) : Z := Z.max 0 (toInt32 ms).

(** [send] after the write, and what the caller does when [send] has
    returned: [sendRaw] returns; [sendPacketWaitResponse] runs lines
    146-172. *)
Definition sendDone (t : nat) (k : Task) (s : Client) : Client :=
  let s1 := emit [Dispatch (RawPacketSentEvent (bytesOf (call k)))] s in
  match call k with
  | SendRaw _ _ => settle t k ReturnedVoid s1
  | SendPacketWaitResponse packet timeoutMs =>
      if oneWay packet
      then settle t k (ReturnedPacket (newNiimbotPacket ResponseCommandId_Invalid [])) s1
      else
        let deadline := (clock s1 + setTimeoutDelay (timeoutOf timeoutMs))%Z in
        let s2 := withTimers (timers s1 ++ [(t, deadline)]) s1 in
        let s3 := withPacketListeners (packetListeners s2 ++ [t]) s2 in
        setPhase t Awaiting s3
  | Connect => s
  end.

(** ** Correlation (lines 152-172) *)

(** The test of lines 156-159. *)
Definition isValidResponse (packet received : NiimbotPacket) : bool :=
  (length (validResponseIds packet) =? 0)%nat
  || existsb (fun i => (i =? command received)%Z) (validResponseIds packet).

Definition removeEventListener (t : nat) (l : list nat) : list nat :=
  List.filter (fun t' => negb (t' =? t)%nat) l.

Definition clearTimeout (t : nat) (l : list (nat * Z)) : list (nat * Z) :=
  List.filter (fun e => negb (fst e =? t)%nat) l.

(** The listener that call [t] added (lines 155-164). *)
Definition listener (t : nat) (received : NiimbotPacket) (s : Client) : Client :=
  match tasks s !! t with
  | Some k =>
      match call k with
      | SendPacketWaitResponse packet _ =>
          if isValidResponse packet received
          then
            let s1 := withTimers (clearTimeout t (timers s)) s in
            let s2 := withPacketListeners (removeEventListener t (packetListeners s1)) s1 in
            settlePromise t k (ReturnedPacket received) s2
          else s
      | _ => s
      end
  | None => s
  end.

Definition timeoutMessage (packet : NiimbotPacket) : string :=
  "Timeout waiting response (waited for " ++ bufToHex (validResponseIds packet) ", " ++ ")".

(** The timer callback of call [t] (lines 166-169). *)
Definition onTimeout (t : nat) (s : Client) : Client :=
  match tasks s !! t with
  | Some k =>
      match call k with
      | SendPacketWaitResponse packet _ =>
          let s1 := withPacketListeners (removeEventListener t (packetListeners s)) s in
          settlePromise t k (Thrown (JsError (timeoutMessage packet))) s1
      | _ => s
      end
  | None => s
  end.

(** [dispatchTypedEvent("packetreceived", ...)]: observers see the event,
    and the listeners of pending exchanges run in the order they were
    added. *)
Definition dispatchPacketReceived (received : NiimbotPacket) (s : Client) : Client :=
  fold_left (fun s' t => listener t received s') (packetListeners s)
            (emit [Dispatch (PacketReceivedEvent received)] s).

(** The "characteristicvaluechanged" listener (lines 68-79).  [fromBytes]
    runs first; when it throws, the listener ends there. *)
Definition onCharacteristicValueChanged (bytes : list byte) (s : Client) : Client :=
  match fromBytes bytes with
  | None => s
  | Some packet =>
      let s1 := emit [Dispatch (RawPacketReceivedEvent bytes)] s in
      let s2 := dispatchPacketReceived packet s1 in
      if inResponseCommandId (command packet)
      then s2
      else emit [ConsoleWarn ("Unknown response command: 0x" ++ numberToHex (command packet))] s2
  end.

(** ** connect (lines 33-102), one definition per stretch between awaits *)

(** Lines 34-40. *)
Definition connectBegin (s : Client) : Client :=
  spawn Connect RequestingDevice (emit [RequestDevice] (disconnect s)).

(** Lines 42-56. *)
Definition connectDevice (t : nat) (k : Task) (d : BluetoothDevice) (s : Client) : Client :=
  match gatt d with
  | None => settle t k (Thrown (JsError "Device has no Bluetooth Generic Attribute Profile")) s
  | Some g =>
      let s1 := withDisconnectListeners (disconnectListeners s ++ [d]) s in
      setPhase t (GattConnecting d g) (emit [GattConnect d] s1)
  end.

(** Lines 57-81. *)
Definition connectSelect (t : nat) (k : Task) (d : BluetoothDevice)
    (g : BluetoothRemoteGATTServer) (s : Client) : Client :=
  match findSuitableBluetoothCharacteristic g with
  | None =>
      settle t k (Thrown (JsError "Suitable device characteristic not found"))
             (emit [GattDisconnect g] s)
  | Some c =>
      let s1 := emit [ConsoleLog ("Found suitable characteristic " ++ characteristic_uuid c)] s in
      let s2 := withValueListeners (valueListeners s1 ++ [c]) s1 in
      setPhase t (StartingNotifications d g c) (emit [StartNotifications c] s2)
  end.

(** Lines 83-87. *)
Definition connectAssign (t : nat) (d : BluetoothDevice) (g : BluetoothRemoteGATTServer)
    (c : BluetoothRemoteGATTCharacteristic) (s : Client) : Client :=
  setPhase t (Negotiating d) (withSession (Some g) (Some c) (info s) s).

(** Lines 89-101; [failure] is what the [try] block threw, if it did. *)
Definition connectFinish (t : nat) (k : Task) (d : BluetoothDevice)
    (failure : option Error) (s : Client) : Client :=
  let s1 := match failure with
            | Some e => emit [ConsoleError "Unable to fetch printer info."; ConsoleErrorObject e] s
            | None => s
            end in
  let r := {| deviceName := name d;
              result := default ConnectResult_FirmwareErrors (connectResult (info s1)) |} in
  settle t k (ReturnedInfo r) (emit [Dispatch (ConnectEvent r)] s1).

(** ** The event loop *)

(** How an awaited promise settles. *)
Inductive Settlement :=
  | Fulfilled
  | Chosen (d : BluetoothDevice)
  | Rejected (e : Error).

Inductive Action :=
  | Invoke (c : Call)
  | InvokeDisconnect
  | Resume (t : nat) (r : Settlement)
  | GattServerDisconnected (d : BluetoothDevice)
  | CharacteristicValueChanged (c : BluetoothRemoteGATTCharacteristic) (bytes : list byte)
  | TimerFired (t : nat)
  | Elapse (ms : Z)
  | StoreInfo (i : PrinterInfo).

(** A call on the public surface, up to its first suspension. *)
Definition invoke (c : Call) (s : Client) : Client :=
  let t := length (tasks s) in
  match c with
  | Connect => connectBegin s
  | SendRaw _ true => sendCheck t {| call := c; phase := Acquired |} (spawn c Acquired s)
  | _ => acquire t (spawn c Queued s)
  end.

(** The continuation of call [t], suspended as [k] says. *)
Definition resume (t : nat) (k : Task) (r : Settlement) (s : Client) : option Client :=
  match phase k, r with
  | Acquired, Fulfilled => Some (sendCheck t k s)
  | Sleeping, Fulfilled => Some (sendWrite t k s)
  | Writing, Fulfilled => Some (sendDone t k s)
  | Writing, Rejected e => Some (settle t k (Thrown e) s)
  | RequestingDevice, Chosen d => Some (connectDevice t k d s)
  | RequestingDevice, Rejected e => Some (settle t k (Thrown e) s)
  | GattConnecting d g, Fulfilled => Some (setPhase t (Finding d g) s)
  | GattConnecting _ _, Rejected e => Some (settle t k (Thrown e) s)
  | Finding d g, Fulfilled => Some (connectSelect t k d g s)
  | Finding _ _, Rejected e => Some (settle t k (Thrown e) s)
  | StartingNotifications d g c, Fulfilled => Some (connectAssign t d g c s)
  | StartingNotifications _ _ _, Rejected e => Some (settle t k (Thrown e) s)
  | Negotiating d, Fulfilled => Some (connectFinish t k d None s)
  | Negotiating d, Rejected e => Some (connectFinish t k d (Some e) s)
  | _, _ => None
  end.

Definition deadlineOf (t : nat) (l : list (nat * Z)) : option Z :=
  snd <$> List.find (fun e => (fst e =? t)%nat) l.

(** One turn of the event loop; [None] when the turn cannot happen. *)
Definition step (a : Action) (s : Client) : option Client :=
  match a with
  | Invoke c => Some (invoke c s)
  | InvokeDisconnect => Some (disconnect s)
  | Resume t r =>
      match tasks s !! t with
      | Some k => resume t k r s
      | None => None
      end
  | GattServerDisconnected d =>
      if decide (d ∈ disconnectListeners s)
      then Some (dispatchGattServerDisconnected d (disconnectListeners s) s)
      else None
  | CharacteristicValueChanged c bytes =>
      if decide (c ∈ valueListeners s) then Some (onCharacteristicValueChanged bytes s) else None
  | TimerFired t =>
      match deadlineOf t (timers s) with
      | Some deadline =>
          if (deadline <=? clock s)%Z
          then Some (onTimeout t (withTimers (clearTimeout t (timers s)) s))
          else None
      | None => None
      end
  | Elapse ms =>
      if (0 <=? ms)%Z then Some (withClock (clock s + ms)%Z s) else None
  | StoreInfo i => Some (withSession (gattServer s) (channel s) i s)
  end.

Fixpoint run (acts : list Action) (s : Client) : option Client :=
  match acts with
  | [] => Some s
  | a :: rest =>
      match step a s with
      | Some s' => run rest s'
      | None => None
      end
  end.

(** The states the client can be in. *)
Definition reachable (s : Client) : Prop :=
  exists interval acts, run acts (newClient interval) = Some s.

End Client.


(** ** The critical section and the pending exchange *)

(** Phases between the acquisition of the mutex and the end of the
    callback of [runExclusive]. *)
Definition inSection (ph : Phase) : bool :=
  match ph with
  | Acquired | Sleeping | Writing | Awaiting => true
  | _ => false
  end.

(** The call is inside its critical section. *)
Definition holdsMutex (k : Task) : bool :=
  usesMutex (call k) && inSection (phase k).

(** The phases a call can be in. *)
Definition phaseOK (c : Call) (ph : Phase) : bool :=
  match ph with
  | Queued => usesMutex c
  | Acquired | Sleeping | Writing =>
      match c with Connect => false | _ => true end
  | Awaiting =>
      match c with SendPacketWaitResponse packet _ => negb (oneWay packet) | _ => false end
  | RequestingDevice | GattConnecting _ _ | Finding _ _
  | StartingNotifications _ _ _ | Negotiating _ =>
      match c with Connect => true | _ => false end
  | Settled _ => true
  end.

Definition phaseAt (s : Client) (t : nat) : option Phase :=
  phase <$> tasks s !! t.

(** Call [t] is an exchange for [packet] whose answer is outstanding. *)
Definition pendingRequest (s : Client) (t : nat) (packet : NiimbotPacket)
    (timeoutMs : option Z) : Prop :=
  tasks s !! t = Some {| call := SendPacketWaitResponse packet timeoutMs; phase := Awaiting |}.

(** [runExclusive] hands the mutex on: to nobody when nobody waits, to
    the oldest waiter otherwise. *)
Definition handedOver (s s' : Client) : Prop :=
  match queue (mutex s) with
  | [] => mutex s' = {| locked := false; queue := [] |}
  | h :: q => mutex s' = {| locked := true; queue := q |} /\ phaseAt s' h = Some Acquired
  end.

(** The call is in its critical section or has ended. *)
Definition keeps (k : Task) : Prop :=
  usesMutex (call k) = true /\
  (inSection (phase k) = true \/ exists o, phase k = Settled o).

(** From [s] to [s'], no call leaves its critical section other than by
    ending. *)
Definition stable (s s' : Client) : Prop :=
  forall i k, tasks s !! i = Some k -> keeps k ->
    exists k', tasks s' !! i = Some k' /\ call k' = call k /\ keeps k'.

(** From [s] to [s'], the mutex stays as it is or is handed on. *)
Definition mutexMove (s s' : Client) : Prop :=
  mutex s' = mutex s \/ handedOver s s'.

(** Call [t] is a [connect()]; it does not wait for the mutex. *)
Definition connectCall (s : Client) (t : nat) : Prop :=
  (exists k, tasks s !! t = Some k /\ call k = Connect) /\ t ∉ queue (mutex s).

(** From [s] to [s'], the calls that have ended keep their outcome. *)
Definition final (s s' : Client) : Prop :=
  forall i k o, tasks s !! i = Some k -> phase k = Settled o -> tasks s' !! i = Some k.

(** What holds in every state the client reaches. *)
Record Inv (s : Client) : Prop := {
  inv_exclusive : forall i j ki kj,
    tasks s !! i = Some ki -> tasks s !! j = Some kj ->
    holdsMutex ki = true -> holdsMutex kj = true -> i = j;
  inv_unlocked : locked (mutex s) = false ->
    queue (mutex s) = [] /\ forall i k, tasks s !! i = Some k -> holdsMutex k = false;
  inv_phase : forall i k, tasks s !! i = Some k -> phaseOK (call k) (phase k) = true;
  inv_queue : forall t, t ∈ queue (mutex s) ->
    exists k, tasks s !! t = Some k /\ phase k = Queued;
  inv_queue_nodup : NoDup (queue (mutex s));
  inv_listeners : forall t, t ∈ packetListeners s ->
    exists k, tasks s !! t = Some k /\ phase k = Awaiting;
  inv_listeners_nodup : NoDup (packetListeners s);
  inv_timers : forall t deadline, (t, deadline) ∈ timers s ->
    exists k, tasks s !! t = Some k /\ phase k = Awaiting;
  inv_pending : forall t k, tasks s !! t = Some k -> phase k = Awaiting ->
    t ∈ packetListeners s /\ exists deadline, (t, deadline) ∈ timers s
}.

(** An action that ends the session: [disconnect()], [connect()] (which
    disconnects first), or the transport's "gattserverdisconnected". *)
Definition disconnects (a : Action) : bool :=
  match a with
  | InvokeDisconnect | Invoke Connect | GattServerDisconnected _ => true
  | _ => false
  end.

(** An action that runs lines 83-84 in state [s]. *)
Definition assigns (a : Action) (s : Client) : bool :=
  match a with
  | Resume t Fulfilled =>
      match phaseAt s t with
      | Some (StartingNotifications _ _ _) => true
      | _ => false
      end
  | _ => false
  end.

(** ** A concrete setting, for the examples

    A printer with one vendor service, and stand-ins for the packet codec
    and the hex printer: a packet travels as its command byte followed by
    its data. *)
Module Demo.

Definition hexDigit (n : Z) : string :=
  match n with
  | 0 => "0" | 1 => "1" | 2 => "2" | 3 => "3" | 4 => "4" | 5 => "5" | 6 => "6" | 7 => "7"
  | 8 => "8" | 9 => "9" | 10 => "A" | 11 => "B" | 12 => "C" | 13 => "D" | 14 => "E"
  | _ => "F"
  end%Z.

Definition hexByte (n : Z) : string :=
  hexDigit (Z.land (Z.shiftr n 4) 15) ++ hexDigit (Z.land n 15).

Fixpoint joinHex (l : list Z) (separator : string) : string :=
  match l with
  | [] => ""
  | [n] => hexByte n
  | n :: rest => hexByte n ++ separator ++ joinHex rest separator
  end.

Definition byteOf (n : Z) : byte :=
  default x00 (Byte.of_N (Z.to_N (Z.land n 255))).

Definition decode (bytes : list byte) : option NiimbotPacket :=
  match bytes with
  | [] => None
  | c :: rest =>
      Some {| command := Z.of_N (Byte.to_N c); data := rest;
              oneWay := false; validResponseIds := [] |}
  end.

Definition collaborators : Collaborators := {|
  ResponseCommandId_Invalid := (-1)%Z;
  inResponseCommandId := fun n => bool_decide (n ∈ [(-1)%Z; 5%Z; 220%Z]);
  ConnectResult_FirmwareErrors := 90%Z;
  newNiimbotPacket := fun c d =>
    {| command := c; data := d; oneWay := false; validResponseIds := [] |};
  toBytes := fun p => byteOf (command p) :: data p;
  fromBytes := decode;
  bufToHex := joinHex;
  numberToHex := hexByte
|}.

#[local] Existing Instance collaborators.

Definition vendorChannel : BluetoothRemoteGATTCharacteristic :=
  {| characteristic_uuid := "bef8d6c9-9c21-4c9e-b632-bd58c1009f9f";
     properties := {| notify := true; writeWithoutResponse := true |} |}.

Definition readOnlyChannel : BluetoothRemoteGATTCharacteristic :=
  {| characteristic_uuid := "00002a00-0000-1000-8000-00805f9b34fb";
     properties := {| notify := false; writeWithoutResponse := false |} |}.

Definition printerServer : BluetoothRemoteGATTServer :=
  {| getPrimaryServices :=
       [ {| uuid := "1800"; getCharacteristics := [vendorChannel] |};
         {| uuid := "00001800-0000-1000-8000-00805f9b34fb";
            getCharacteristics := [readOnlyChannel] |};
         {| uuid := "e7810a71-73ae-499d-8c15-faa9aef0c3f2";
            getCharacteristics := [readOnlyChannel; vendorChannel] |} ] |}.

Definition printer : BluetoothDevice :=
  {| deviceId := "d1"; name := Some "B1-G123"; gatt := Some printerServer |}.



(** A command that expects the answer 5, and one that expects none. *)
Definition query : NiimbotPacket :=
  {| command := 64; data := [x01]; oneWay := false; validResponseIds := [5%Z] |}.


Definition notice : NiimbotPacket :=
  {| command := 88; data := []; oneWay := true; validResponseIds := [] |}.

(** connect(), with a negotiation that stores [connectResult = 1]. *)
Definition connectActions : list Action :=
  [ Invoke Connect; Resume 0 (Chosen printer); Resume 0 Fulfilled; Resume 0 Fulfilled;
    Resume 0 Fulfilled;
    StoreInfo {| connectResult := Some 1%Z; attributes := [] |};
    Resume 0 Fulfilled ].

Definition connected : Client :=
  default (newClient 10) (run connectActions (newClient 10)).

(** A connected client with [query] written and its answer pending. *)
Definition pending : Client :=
  default connected
    (run [Invoke (SendPacketWaitResponse query None);
          Resume 1 Fulfilled; Resume 1 Fulfilled; Resume 1 Fulfilled] connected).

(** connect() on the printer, suspended in [startNotifications] and in
    the negotiation. *)
Definition notifying : Client :=
  default (newClient 10)
    (run [Invoke Connect; Resume 0 (Chosen printer); Resume 0 Fulfilled; Resume 0 Fulfilled]
         (newClient 10)).

Definition negotiating : Client :=
  default notifying (run [Resume 0 Fulfilled] notifying).



(** The client after connect() and the turns [acts]. *)
Definition after (acts : list Action) : Client :=
  default (newClient 10) (run (connectActions ++ acts) (newClient 10)).

(** [sendPacketWaitResponse(packet, timeoutMs)] as call 1, and its first
    [turns] continuations. *)
Definition exchange (packet : NiimbotPacket) (timeoutMs : option Z) (turns : nat)
    : list Action :=
  Invoke (SendPacketWaitResponse packet timeoutMs) :: List.repeat (Resume 1 Fulfilled) turns.

(** The write of the one-way [notice], and of [query], in flight. *)
Definition writingNotice : Client := after (exchange notice None 2).
Definition writingQuery : Client := after (exchange query None 2).


(** [query] pending, 1000 ms later. *)
Definition expired : Client := after (exchange query None 3 ++ [Elapse 1000]).

(** [sendRaw] without force, admitted by the free mutex. *)
Definition rawAcquired : Client := after [Invoke (SendRaw [x01; x02] false)].

(** [sendPacketWaitResponse(query)] on a client that never connected. *)
Definition closedExchange : Client :=
  default (newClient 10)
    (run [Invoke (SendPacketWaitResponse query None)] (newClient 10)).

(** [sendRaw] asleep before its write, and the caller disconnects. *)
Definition sleepingDisconnected : Client :=
  after [Invoke (SendRaw [x01; x02] false); Resume 1 Fulfilled; InvokeDisconnect].

(** A device without a GATT profile. *)
Definition bareDevice : BluetoothDevice :=
  {| deviceId := "d3"; name := None; gatt := None |}.

(** connect() whose [gatt.connect()] fails, and connect() again with the
    same printer: the printer carries the listeners of both calls. *)
Definition registeredTwice : Client :=
  default (newClient 10)
    (run [Invoke Connect; Resume 0 (Chosen printer);
          Resume 0 (Rejected (JsError "NetworkError"));
          Invoke Connect; Resume 1 (Chosen printer); Resume 1 Fulfilled;
          Resume 1 Fulfilled; Resume 1 Fulfilled; Resume 1 Fulfilled]
         (newClient 10)).



End Demo.

(** * Properties *)

(** ** The table of calls *)

Lemma lookup_setPhase t ph s j :
  tasks (setPhase t ph s) !! j =
    if decide (t = j) then withPhase ph <$> tasks s !! t else tasks s !! j.
Proof. unfold setPhase; simpl. apply list_lookup_alter. Qed.

Lemma lookup_setPhase_eq t ph s k :
  tasks s !! t = Some k -> tasks (setPhase t ph s) !! t = Some (withPhase ph k).
Proof. intros Hk. rewrite lookup_setPhase, decide_True by done. by rewrite Hk. Qed.

Lemma lookup_setPhase_ne t ph s j :
  t <> j -> tasks (setPhase t ph s) !! j = tasks s !! j.
Proof. intros. by rewrite lookup_setPhase, decide_False. Qed.

Lemma lookup_setPhase_Some t ph s j k' :
  tasks (setPhase t ph s) !! j = Some k' ->
  exists k, tasks s !! j = Some k /\
    ((j = t /\ k' = withPhase ph k) \/ (j <> t /\ k' = k)).
Proof.
  rewrite lookup_setPhase. case_decide as Hd.
  - subst j. destruct (tasks s !! t) as [k|] eqn:Hk; simpl; [|done].
    intros [= <-]. exists k. auto.
  - intros Hj. exists k'. auto.
Qed.

Lemma lookup_spawn_Some c ph s j k' :
  tasks (spawn c ph s) !! j = Some k' ->
  tasks s !! j = Some k' \/ (j = length (tasks s) /\ k' = {| call := c; phase := ph |}).
Proof.
  unfold spawn; simpl. rewrite lookup_snoc_Some.
  intros [[_ Hj]|[-> <-]]; [by left|by right].
Qed.

Lemma lookup_spawn_old c ph s j k :
  tasks s !! j = Some k -> tasks (spawn c ph s) !! j = Some k.
Proof. unfold spawn; simpl. apply lookup_app_l_Some. Qed.

Lemma lookup_spawn_new c ph s :
  tasks (spawn c ph s) !! length (tasks s) = Some {| call := c; phase := ph |}.
Proof.
  unfold spawn; simpl. rewrite lookup_app_r by lia.
  by rewrite Nat.sub_diag.
Qed.

Lemma lookup_tasks_lt s j k : tasks s !! j = Some k -> j < length (tasks s).
Proof. apply lookup_lt_Some. Qed.

Lemma removeEventListener_elem t t' l :
  t' ∈ removeEventListener t l <-> t' <> t /\ t' ∈ l.
Proof.
  unfold removeEventListener. rewrite !list_elem_of_In, filter_In.
  rewrite negb_true_iff, Nat.eqb_neq. tauto.
Qed.

Lemma removeEventListener_absent t l : t ∉ l -> removeEventListener t l = l.
Proof.
  unfold removeEventListener. induction l as [|x l IH]; simpl; [done|].
  rewrite not_elem_of_cons. intros [Hx Hl].
  destruct (Nat.eqb_spec x t) as [->|_]; [done|]. simpl. by rewrite IH.
Qed.

Lemma removeEventListener_NoDup t l : NoDup l -> NoDup (removeEventListener t l).
Proof.
  unfold removeEventListener. rewrite !NoDup_ListNoDup. apply List.NoDup_filter.
Qed.

Lemma clearTimeout_elem t t' deadline l :
  (t', deadline) ∈ clearTimeout t l <-> t' <> t /\ (t', deadline) ∈ l.
Proof.
  unfold clearTimeout. rewrite !list_elem_of_In, filter_In. simpl.
  rewrite negb_true_iff, Nat.eqb_neq. tauto.
Qed.

Lemma clearTimeout_absent t l :
  (forall deadline, (t, deadline) ∉ l) -> clearTimeout t l = l.
Proof.
  unfold clearTimeout. induction l as [|[x d] l IH]; simpl; [done|].
  intros Hl. destruct (Nat.eqb_spec x t) as [->|_].
  - exfalso. apply (Hl d). left.
  - simpl. rewrite IH; [done|]. intros d' Hd'. apply (Hl d'). by right.
Qed.

Lemma deadlineOf_Some t l deadline :
  deadlineOf t l = Some deadline -> (t, deadline) ∈ l.
Proof.
  unfold deadlineOf. destruct (List.find _ l) as [[t' d]|] eqn:Hf; simpl; [|done].
  intros [= <-]. apply find_some in Hf as [Hin Ht]. simpl in Ht.
  apply Nat.eqb_eq in Ht as ->. by apply list_elem_of_In.
Qed.

Lemma deadlineOf_elem t l deadline :
  (t, deadline) ∈ l -> is_Some (deadlineOf t l).
Proof.
  unfold deadlineOf. intros Hin%list_elem_of_In.
  destruct (List.find _ l) as [e|] eqn:Hf; simpl; [by eexists|].
  eapply find_none in Hf; [|done]. simpl in Hf. by rewrite Nat.eqb_refl in Hf.
Qed.

Lemma deadlineOf_clearTimeout t l : deadlineOf t (clearTimeout t l) = None.
Proof.
  destruct (deadlineOf t (clearTimeout t l)) as [d|] eqn:Hd; [|done].
  apply deadlineOf_Some, clearTimeout_elem in Hd as [Hne _]. done.
Qed.

(** ** The "gattserverdisconnected" event *)

(** What every run of the listener keeps, the event keeps. *)
Lemma dispatchGattServerDisconnected_keeps (P : Client -> Prop) d :
  (forall s, P s -> P (disconnectListener d s)) ->
  forall l s, P s -> P (dispatchGattServerDisconnected d l s).
Proof.
  intros HP l. induction l as [|d' l IH]; intros s Hs; cbn [dispatchGattServerDisconnected].
  - done.
  - apply IH. case_decide; auto.
Qed.

Lemma dispatchGattServerDisconnected_frame d l s :
  tasks (dispatchGattServerDisconnected d l s) = tasks s /\
  mutex (dispatchGattServerDisconnected d l s) = mutex s /\
  packetListeners (dispatchGattServerDisconnected d l s) = packetListeners s /\
  timers (dispatchGattServerDisconnected d l s) = timers s /\
  valueListeners (dispatchGattServerDisconnected d l s) = valueListeners s /\
  clock (dispatchGattServerDisconnected d l s) = clock s /\
  packetIntervalMs (dispatchGattServerDisconnected d l s) = packetIntervalMs s.
Proof.
  apply (dispatchGattServerDisconnected_keeps
    (fun x => tasks x = tasks s /\ mutex x = mutex s /\
              packetListeners x = packetListeners s /\ timers x = timers s /\
              valueListeners x = valueListeners s /\ clock x = clock s /\
              packetIntervalMs x = packetIntervalMs s)); [|done].
  intros x Hx. exact Hx.
Qed.

(** One registration of [d] is enough for the session to be cleared. *)
Lemma dispatchGattServerDisconnected_session d l s :
  d ∈ l ->
  gattServer (dispatchGattServerDisconnected d l s) = None /\
  channel (dispatchGattServerDisconnected d l s) = None /\
  info (dispatchGattServerDisconnected d l s) = emptyInfo.
Proof.
  revert s. induction l as [|d' l IH]; intros s Hin; [by apply elem_of_nil in Hin|].
  cbn [dispatchGattServerDisconnected]. case_decide as Hd.
  - apply (dispatchGattServerDisconnected_keeps
      (fun x => gattServer x = None /\ channel x = None /\ info x = emptyInfo)); done.
  - apply IH. apply elem_of_cons in Hin as [->|Hin]; done.
Qed.

Lemma dispatchGattServerDisconnected_setPhase d l t ph s :
  dispatchGattServerDisconnected d l (setPhase t ph s)
  = setPhase t ph (dispatchGattServerDisconnected d l s).
Proof.
  revert s. induction l as [|d' l IH]; intros s; cbn [dispatchGattServerDisconnected]; [done|].
  case_decide; [|apply IH]. rewrite <- IH. done.
Qed.

(** ** The delay of a timer *)

Lemma toInt32_range z : (- 2 ^ 31 <= toInt32 z < 2 ^ 31)%Z.
Proof.
  unfold toInt32. change (2 ^ 31)%Z with 2147483648%Z. change (2 ^ 32)%Z with 4294967296%Z.
  pose proof (Z.mod_pos_bound (z + 2147483648) 4294967296). lia.
Qed.

Lemma toInt32_small z : (- 2 ^ 31 <= z < 2 ^ 31)%Z -> toInt32 z = z.
Proof.
  unfold toInt32. change (2 ^ 31)%Z with 2147483648%Z. change (2 ^ 32)%Z with 4294967296%Z.
  intros Hz. rewrite Z.mod_small by lia. lia.
Qed.

Lemma toInt32_le z : (0 <= z)%Z -> (toInt32 z <= z)%Z.
Proof.
  unfold toInt32. change (2 ^ 31)%Z with 2147483648%Z. change (2 ^ 32)%Z with 4294967296%Z.
  intros Hz. pose proof (Z.mod_le (z + 2147483648) 4294967296). lia.
Qed.

Lemma setTimeoutDelay_small ms : (0 <= ms < 2 ^ 31)%Z -> setTimeoutDelay ms = ms.
Proof.
  intros Hms. unfold setTimeoutDelay. rewrite toInt32_small; [lia|].
  change (2 ^ 31)%Z with 2147483648%Z in *. lia.
Qed.

Lemma setTimeoutDelay_le ms : (0 <= ms)%Z -> (0 <= setTimeoutDelay ms <= ms)%Z.
Proof.
  intros Hms. unfold setTimeoutDelay. pose proof (toInt32_le ms Hms). lia.
Qed.

Lemma setTimeoutDelay_wraps ms : (2 ^ 31 <= ms < 2 ^ 32)%Z -> setTimeoutDelay ms = 0%Z.
Proof.
  intros Hms. unfold setTimeoutDelay.
  assert (toInt32 ms = ms - 2 ^ 32)%Z as ->.
  { unfold toInt32. change (2 ^ 31)%Z with 2147483648%Z in *.
    change (2 ^ 32)%Z with 4294967296%Z in *.
    rewrite <- (Z.mod_unique (ms + 2147483648) 4294967296 1 (ms - 2147483648)); lia. }
  change (2 ^ 32)%Z with 4294967296%Z. change (2 ^ 31)%Z with 2147483648%Z in Hms. lia.
Qed.

(** ** The invariant *)

Section Invariant.
Context `{Collaborators}.

Lemma holdsMutex_withPhase ph k :
  holdsMutex (withPhase ph k) = usesMutex (call k) && inSection ph.
Proof. done. Qed.

Lemma holdsMutex_Queued c : holdsMutex {| call := c; phase := Queued |} = false.
Proof. unfold holdsMutex; simpl. apply andb_false_r. Qed.

(** [Inv] reads four fields of the client. *)
Lemma Inv_ext s s' :
  tasks s' = tasks s -> mutex s' = mutex s ->
  packetListeners s' = packetListeners s -> timers s' = timers s ->
  Inv s -> Inv s'.
Proof.
  intros Ht Hm Hl Htm [? ? ? ? ? ? ? ? ?].
  split; rewrite ?Ht, ?Hm, ?Hl, ?Htm; done.
Qed.

Lemma Inv_newClient interval : Inv (newClient interval).
Proof.
  split; simpl; try done; try (intros ? Hin; by apply elem_of_nil in Hin);
    try (intros ? ? Hin; by apply elem_of_nil in Hin); try constructor.
Qed.

(** A call moves on, neither entering nor leaving the queue or the
    pending state, and without becoming a holder of the mutex. *)
Lemma Inv_setPhase t k ph s :
  Inv s -> tasks s !! t = Some k ->
  phase k <> Queued -> phase k <> Awaiting -> ph <> Queued -> ph <> Awaiting ->
  phaseOK (call k) ph = true ->
  (holdsMutex (withPhase ph k) = true -> holdsMutex k = true) ->
  Inv (setPhase t ph s).
Proof.
  intros [Hex Hun Hph Hq Hqn Hl Hln Htm Hp] Hk HnQ HnA HphQ HphA Hok Hh.
  split.
  - intros i j ki kj Hi Hj Hhi Hhj.
    apply lookup_setPhase_Some in Hi as (ki0 & Hi & Hci).
    apply lookup_setPhase_Some in Hj as (kj0 & Hj & Hcj).
    apply (Hex i j ki0 kj0 Hi Hj).
    + destruct Hci as [[-> ->]|[_ ->]]; [|done].
      rewrite Hk in Hi. injection Hi as <-. auto.
    + destruct Hcj as [[-> ->]|[_ ->]]; [|done].
      rewrite Hk in Hj. injection Hj as <-. auto.
  - intros Hlk. destruct (Hun Hlk) as [Hq0 Hnone]. split; [done|].
    intros i k' Hi. apply lookup_setPhase_Some in Hi as (k0 & Hi & Hc).
    destruct Hc as [[-> ->]|[_ ->]]; [|by eapply Hnone].
    rewrite Hk in Hi. injection Hi as <-.
    destruct (holdsMutex (withPhase ph k)) eqn:Hw; [|done].
    rewrite <- (Hnone _ _ Hk). symmetry. by apply Hh.
  - intros i k' Hi. apply lookup_setPhase_Some in Hi as (k0 & Hi & Hc).
    destruct Hc as [[-> ->]|[_ ->]]; [|by eapply Hph].
    rewrite Hk in Hi. by injection Hi as <-.
  - intros t' Ht'. destruct (Hq t' Ht') as (k0 & Hk0 & Hph0).
    exists k0. split; [|done]. rewrite lookup_setPhase_ne; [done|].
    intros ->. congruence.
  - done.
  - intros t' Ht'. destruct (Hl t' Ht') as (k0 & Hk0 & Hph0).
    exists k0. split; [|done]. rewrite lookup_setPhase_ne; [done|].
    intros ->. congruence.
  - done.
  - intros t' d Ht'. destruct (Htm t' d Ht') as (k0 & Hk0 & Hph0).
    exists k0. split; [|done]. rewrite lookup_setPhase_ne; [done|].
    intros ->. congruence.
  - intros t' k' Hi Hph'. apply lookup_setPhase_Some in Hi as (k0 & Hi & Hc).
    destruct Hc as [[-> ->]|[_ ->]]; [done|]. by eapply Hp.
Qed.

(** A new call that stays outside the mutex. *)
Lemma Inv_spawn c ph s :
  Inv s -> phaseOK c ph = true -> ph <> Awaiting ->
  holdsMutex {| call := c; phase := ph |} = false ->
  Inv (spawn c ph s).
Proof.
  intros [Hex Hun Hph Hq Hqn Hl Hln Htm Hp] Hok HphA Hh.
  split.
  - intros i j ki kj Hi Hj Hhi Hhj.
    apply lookup_spawn_Some in Hi as [Hi|[-> ->]]; [|congruence].
    apply lookup_spawn_Some in Hj as [Hj|[-> ->]]; [|congruence].
    by eapply Hex.
  - intros Hlk. destruct (Hun Hlk) as [Hq0 Hnone]. split; [done|].
    intros i k' Hi. apply lookup_spawn_Some in Hi as [Hi|[-> ->]]; [|done].
    by eapply Hnone.
  - intros i k' Hi. apply lookup_spawn_Some in Hi as [Hi|[-> ->]]; [|done].
    by eapply Hph.
  - intros t' Ht'. destruct (Hq t' Ht') as (k0 & Hk0 & Hph0).
    exists k0. split; [|done]. by apply lookup_spawn_old.
  - done.
  - intros t' Ht'. destruct (Hl t' Ht') as (k0 & Hk0 & Hph0).
    exists k0. split; [|done]. by apply lookup_spawn_old.
  - done.
  - intros t' d Ht'. destruct (Htm t' d Ht') as (k0 & Hk0 & Hph0).
    exists k0. split; [|done]. by apply lookup_spawn_old.
  - intros t' k' Hi Hph'.
    apply lookup_spawn_Some in Hi as [Hi|[-> ->]]; [|done]. by eapply Hp.
Qed.

(** A call that goes through the mutex: it is admitted when the mutex is
    free and queued when it is not. *)
Lemma Inv_acquire c s :
  Inv s -> usesMutex c = true ->
  Inv (acquire (length (tasks s)) (spawn c Queued s)).
Proof.
  intros [Hex Hun Hph Hq Hqn Hl Hln Htm Hp] Hc.
  assert (Hlook : forall ph j k',
    tasks (setPhase (length (tasks s)) ph (spawn c Queued s)) !! j = Some k' ->
    tasks s !! j = Some k' \/
    (j = length (tasks s) /\ k' = {| call := c; phase := ph |})).
  { intros ph j k' Hj. apply lookup_setPhase_Some in Hj as (k0 & Hj & Hcase).
    apply lookup_spawn_Some in Hj as [Hj|[-> ->]].
    - left. destruct Hcase as [[-> ->]|[_ ->]]; [|done].
      apply lookup_tasks_lt in Hj. lia.
    - right. destruct Hcase as [[_ ->]|[? _]]; done. }
  assert (Hold : forall ph j k0, tasks s !! j = Some k0 ->
    tasks (setPhase (length (tasks s)) ph (spawn c Queued s)) !! j = Some k0).
  { intros ph j k0 Hj. rewrite lookup_setPhase_ne.
    - by apply lookup_spawn_old.
    - apply lookup_tasks_lt in Hj. lia. }
  assert (Hnew : forall ph,
    tasks (setPhase (length (tasks s)) ph (spawn c Queued s)) !! length (tasks s)
      = Some {| call := c; phase := ph |}).
  { intros ph. by rewrite (lookup_setPhase_eq _ _ _ _ (lookup_spawn_new _ _ _)). }
  unfold acquire. replace (mutex (spawn c Queued s)) with (mutex s) by done.
  destruct (locked (mutex s)) eqn:Hlk.
  - split; simpl mutex; simpl packetListeners; simpl timers; simpl locked; simpl queue;
      change (tasks (withMutex ?m ?x)) with (tasks x).
    + intros i j ki kj Hi Hj Hhi Hhj.
      apply Hlook in Hi as [Hi|[-> ->]]; [|by rewrite holdsMutex_Queued in Hhi].
      apply Hlook in Hj as [Hj|[-> ->]]; [|by rewrite holdsMutex_Queued in Hhj].
      by eapply Hex.
    + done.
    + intros i k' Hi. apply Hlook in Hi as [Hi|[-> ->]]; [by eapply Hph|done].
    + intros t' [Ht'|Ht']%elem_of_app.
      * destruct (Hq t' Ht') as (k0 & Hk0 & Hph0). exists k0. eauto.
      * apply list_elem_of_singleton in Ht' as ->. eexists. split; [apply Hnew|done].
    + apply NoDup_app. split_and!; [done| |apply NoDup_singleton].
      intros t' Ht' ->%list_elem_of_singleton.
      destruct (Hq _ Ht') as (k0 & Hk0%lookup_tasks_lt & _). lia.
    + intros t' Ht'. destruct (Hl t' Ht') as (k0 & Hk0 & Hph0). exists k0. eauto.
    + done.
    + intros t' d Ht'. destruct (Htm t' d Ht') as (k0 & Hk0 & Hph0). exists k0. eauto.
    + intros t' k' Hi Hph'. apply Hlook in Hi as [Hi|[-> ->]]; [by eapply Hp|done].
  - destruct (Hun eq_refl) as [Hq0 Hnone].
    split; simpl mutex; simpl packetListeners; simpl timers; simpl locked; simpl queue;
      change (tasks (withMutex ?m ?x)) with (tasks x).
    + intros i j ki kj Hi Hj Hhi Hhj.
      apply Hlook in Hi as [Hi|[-> ->]]; [rewrite (Hnone _ _ Hi) in Hhi; done|].
      apply Hlook in Hj as [Hj|[-> ->]]; [rewrite (Hnone _ _ Hj) in Hhj; done|].
      done.
    + done.
    + intros i k' Hi. apply Hlook in Hi as [Hi|[-> ->]]; [by eapply Hph|].
      simpl. by destruct c.
    + rewrite Hq0. intros t' Ht'. by apply elem_of_nil in Ht'.
    + done.
    + intros t' Ht'. destruct (Hl t' Ht') as (k0 & Hk0 & Hph0). exists k0. eauto.
    + done.
    + intros t' d Ht'. destruct (Htm t' d Ht') as (k0 & Hk0 & Hph0). exists k0. eauto.
    + intros t' k' Hi Hph'. apply Hlook in Hi as [Hi|[-> ->]]; [by eapply Hp|done].
Qed.

Lemma holdsMutex_Settled c o : holdsMutex {| call := c; phase := Settled o |} = false.
Proof. unfold holdsMutex; simpl. apply andb_false_r. Qed.

Lemma holdsMutex_withPhase_Settled o k : holdsMutex (withPhase (Settled o) k) = false.
Proof. apply holdsMutex_Settled. Qed.

Lemma holdsMutex_inSection k : holdsMutex k = true -> inSection (phase k) = true.
Proof. unfold holdsMutex. by intros [_ ?]%andb_true_iff. Qed.

Lemma holdsMutex_usesMutex k : holdsMutex k = true -> usesMutex (call k) = true.
Proof. unfold holdsMutex. by intros [? _]%andb_true_iff. Qed.

(** The holder of the mutex leaves: its listener and its timer are gone,
    its call has settled, and the mutex passes to the oldest waiter. *)
Lemma Inv_leave t k o s s' :
  Inv s -> tasks s !! t = Some k -> holdsMutex k = true ->
  tasks s' = tasks s -> mutex s' = mutex s ->
  packetListeners s' = removeEventListener t (packetListeners s) ->
  timers s' = clearTimeout t (timers s) ->
  Inv (release (setPhase t (Settled o) s')).
Proof.
  intros [Hex Hun Hph Hq Hqn Hl Hln Htm Hp] Hk Hh Hts Hmx Hls Htms.
  assert (Hsec := holdsMutex_inSection _ Hh).
  assert (Hlook : forall j k',
    tasks (setPhase t (Settled o) s') !! j = Some k' ->
    exists k0, tasks s !! j = Some k0 /\
      ((j = t /\ k' = withPhase (Settled o) k0) \/ (j <> t /\ k' = k0))).
  { intros j k' Hj. apply lookup_setPhase_Some in Hj. by rewrite Hts in Hj. }
  assert (Hnot : forall j k0, tasks s !! j = Some k0 -> j <> t -> holdsMutex k0 = false).
  { intros j k0 Hj Hne. destruct (holdsMutex k0) eqn:Hh0; [|done].
    destruct Hne. by apply (Hex j t k0 k). }
  assert (Hkeep : forall j k0, tasks s !! j = Some k0 -> j <> t ->
    tasks (setPhase t (Settled o) s') !! j = Some k0).
  { intros j k0 Hj Hne. rewrite lookup_setPhase_ne by done. by rewrite Hts. }
  assert (HnotQ : forall j k0, tasks s !! j = Some k0 -> phase k0 = Queued -> j <> t).
  { intros j k0 Hj HQ ->. rewrite Hk in Hj. injection Hj as <-. by rewrite HQ in Hsec. }
  assert (HnotA : forall j k',
    tasks (setPhase t (Settled o) s') !! j = Some k' -> phase k' = Awaiting ->
    j <> t /\ tasks s !! j = Some k').
  { intros j k' Hj HA. apply Hlook in Hj as (k1 & Hj & [[-> ->]|[? ->]]); done. }
  unfold release. replace (mutex (setPhase t (Settled o) s')) with (mutex s) by done.
  destruct (queue (mutex s)) as [|h q] eqn:Hqueue.
  - split; simpl mutex; simpl locked; simpl queue;
      change (tasks (withMutex ?m ?x)) with (tasks x);
      change (packetListeners (withMutex ?m (setPhase ?a ?b ?x))) with (packetListeners x);
      change (timers (withMutex ?m (setPhase ?a ?b ?x))) with (timers x);
      rewrite ?Hls, ?Htms.
    + intros i j ki kj Hi Hj Hhi Hhj. exfalso.
      apply Hlook in Hi as (k0 & Hi & [[-> ->]|[Hne ->]]).
      * by rewrite holdsMutex_withPhase_Settled in Hhi.
      * by rewrite (Hnot _ _ Hi Hne) in Hhi.
    + intros _. split; [done|]. intros i k' Hi.
      apply Hlook in Hi as (k0 & Hi & [[-> ->]|[Hne ->]]).
      * apply holdsMutex_withPhase_Settled.
      * by eapply Hnot.
    + intros i k' Hi. apply Hlook in Hi as (k0 & Hi & [[-> ->]|[Hne ->]]); [done|].
      by eapply Hph.
    + intros t' Ht'. by apply elem_of_nil in Ht'.
    + constructor.
    + intros t' [Hne Ht']%removeEventListener_elem.
      destruct (Hl t' Ht') as (k0 & Hk0 & Hph0). exists k0. eauto.
    + by apply removeEventListener_NoDup.
    + intros t' d [Hne Ht']%clearTimeout_elem.
      destruct (Htm t' d Ht') as (k0 & Hk0 & Hph0). exists k0. eauto.
    + intros t' k' Hi HA. destruct (HnotA _ _ Hi HA) as [Hne Hi0].
      destruct (Hp _ _ Hi0 HA) as [Hin [d Hd]]. split.
      * by apply removeEventListener_elem.
      * exists d. by apply clearTimeout_elem.
  - assert (Hhq : h ∈ h :: q) by left.
    destruct (Hq h Hhq) as (kh & Hkh & HkhQ).
    assert (Hht : h <> t) by eauto.
    apply NoDup_cons in Hqn as [Hhnq Hqn].
    assert (Hlook2 : forall j k',
      tasks (setPhase h Acquired (withMutex {| locked := true; queue := q |}
               (setPhase t (Settled o) s'))) !! j = Some k' ->
      (j = h /\ k' = withPhase Acquired kh) \/
      (j = t /\ k' = withPhase (Settled o) k) \/
      (j <> h /\ j <> t /\ tasks s !! j = Some k')).
    { intros j k' Hj. apply lookup_setPhase_Some in Hj as (k1 & Hj & Hcase).
      change (tasks (withMutex ?m ?x)) with (tasks x) in Hj.
      apply Hlook in Hj as (k0 & Hj & Hcase0).
      destruct Hcase as [[-> ->]|[Hne ->]].
      - left. split; [done|]. destruct Hcase0 as [[? _]|[_ ->]]; [done|]. congruence.
      - right. destruct Hcase0 as [[-> ->]|[Hne0 ->]].
        + left. split; [done|]. congruence.
        + right. done. }
    assert (Hkeep2 : forall j k0, tasks s !! j = Some k0 -> j <> t -> j <> h ->
      tasks (setPhase h Acquired (withMutex {| locked := true; queue := q |}
               (setPhase t (Settled o) s'))) !! j = Some k0).
    { intros j k0 Hj Hne Hne'. rewrite lookup_setPhase_ne by done.
      change (tasks (withMutex ?m ?x)) with (tasks x). eauto. }
    split; simpl mutex; simpl locked; simpl queue;
      change (packetListeners (setPhase ?c ?d (withMutex ?m (setPhase ?a ?b ?x))))
        with (packetListeners x);
      change (timers (setPhase ?c ?d (withMutex ?m (setPhase ?a ?b ?x)))) with (timers x);
      rewrite ?Hls, ?Htms.
    + intros i j ki kj Hi Hj Hhi Hhj.
      apply Hlook2 in Hi as [[-> ->]|[[-> ->]|(Hi1 & Hi2 & Hi)]];
        [|by rewrite holdsMutex_withPhase_Settled in Hhi|by rewrite (Hnot _ _ Hi Hi2) in Hhi].
      apply Hlook2 in Hj as [[-> ->]|[[-> ->]|(Hj1 & Hj2 & Hj)]];
        [done|by rewrite holdsMutex_withPhase_Settled in Hhj|by rewrite (Hnot _ _ Hj Hj2) in Hhj].
    + done.
    + intros i k' Hi.
      apply Hlook2 in Hi as [[-> ->]|[[-> ->]|(Hi1 & Hi2 & Hi)]]; [|done|by eapply Hph].
      specialize (Hph _ _ Hkh). rewrite HkhQ in Hph. simpl in *.
      by destruct (call kh).
    + intros t' Ht'.
      assert (Ht'q : t' ∈ h :: q) by (by right).
      destruct (Hq t' Ht'q) as (k0 & Hk0 & Hph0). exists k0. split; [|done].
      apply Hkeep2; [done|by eauto|]. intros ->. done.
    + done.
    + intros t' [Hne Ht']%removeEventListener_elem.
      destruct (Hl t' Ht') as (k0 & Hk0 & Hph0). exists k0. split; [|done].
      apply Hkeep2; [done|done|]. intros ->. congruence.
    + by apply removeEventListener_NoDup.
    + intros t' d [Hne Ht']%clearTimeout_elem.
      destruct (Htm t' d Ht') as (k0 & Hk0 & Hph0). exists k0. split; [|done].
      apply Hkeep2; [done|done|]. intros ->. congruence.
    + intros t' k' Hi HA.
      apply Hlook2 in Hi as [[-> ->]|[[-> ->]|(Hi1 & Hi2 & Hi)]]; [done|done|].
      destruct (Hp _ _ Hi HA) as [Hin [d Hd]]. split.
      * by apply removeEventListener_elem.
      * exists d. by apply clearTimeout_elem.
Qed.

(** Lines 152-172: the call becomes the pending exchange. *)
Lemma Inv_register t k packet timeoutMs deadline s s' :
  Inv s -> tasks s !! t = Some k -> phase k = Writing ->
  call k = SendPacketWaitResponse packet timeoutMs -> oneWay packet = false ->
  tasks s' = tasks s -> mutex s' = mutex s ->
  packetListeners s' = packetListeners s ++ [t] ->
  timers s' = timers s ++ [(t, deadline)] ->
  Inv (setPhase t Awaiting s').
Proof.
  intros [Hex Hun Hph Hq Hqn Hl Hln Htm Hp] Hk Hw Hc Hone Hts Hmx Hls Htms.
  assert (Hh : holdsMutex k = true) by (unfold holdsMutex; by rewrite Hc, Hw).
  assert (Hlook : forall j k',
    tasks (setPhase t Awaiting s') !! j = Some k' ->
    (j = t /\ k' = withPhase Awaiting k) \/ (j <> t /\ tasks s !! j = Some k')).
  { intros j k' Hj. apply lookup_setPhase_Some in Hj as (k0 & Hj & Hcase).
    rewrite Hts in Hj. destruct Hcase as [[-> ->]|[Hne ->]]; [left|by right].
    split; [done|]. congruence. }
  assert (Hkeep : forall j k0, tasks s !! j = Some k0 -> j <> t ->
    tasks (setPhase t Awaiting s') !! j = Some k0).
  { intros j k0 Hj Hne. rewrite lookup_setPhase_ne by done. by rewrite Hts. }
  assert (Hnew : tasks (setPhase t Awaiting s') !! t = Some (withPhase Awaiting k)).
  { apply lookup_setPhase_eq. by rewrite Hts. }
  assert (Hne : forall j k0, tasks s !! j = Some k0 -> phase k0 <> Writing -> j <> t).
  { intros j k0 Hj Hne ->. congruence. }
  split; change (mutex (setPhase ?a ?b ?x)) with (mutex x);
    change (packetListeners (setPhase ?a ?b ?x)) with (packetListeners x);
    change (timers (setPhase ?a ?b ?x)) with (timers x);
    rewrite ?Hmx, ?Hls, ?Htms.
  - intros i j ki kj Hi Hj Hhi Hhj.
    apply Hlook in Hi as [[-> ->]|[Hnei Hi]]; apply Hlook in Hj as [[-> ->]|[Hnej Hj]].
    + done.
    + symmetry. by apply (Hex j t kj k).
    + by apply (Hex i t ki k).
    + by apply (Hex i j ki kj).
  - intros Hlk. destruct (Hun Hlk) as [_ Hnone]. by rewrite (Hnone _ _ Hk) in Hh.
  - intros i k' Hi. apply Hlook in Hi as [[-> ->]|[Hnei Hi]]; [|by eapply Hph].
    simpl. by rewrite Hc, Hone.
  - intros t' Ht'. destruct (Hq t' Ht') as (k0 & Hk0 & Hph0).
    exists k0. split; [|done]. apply Hkeep; [done|]. eapply Hne; [done|]. by rewrite Hph0.
  - done.
  - intros t' [Ht'|Ht']%elem_of_app; [|apply list_elem_of_singleton in Ht' as ->].
    + destruct (Hl t' Ht') as (k0 & Hk0 & Hph0).
      exists k0. split; [|done]. apply Hkeep; [done|]. eapply Hne; [done|]. by rewrite Hph0.
    + eexists. split; [apply Hnew|done].
  - apply NoDup_app. split_and!; [done| |apply NoDup_singleton].
    intros t' Ht' ->%list_elem_of_singleton.
    destruct (Hl _ Ht') as (k0 & Hk0 & Hph0). congruence.
  - intros t' d [Ht'|Ht']%elem_of_app.
    + destruct (Htm t' d Ht') as (k0 & Hk0 & Hph0).
      exists k0. split; [|done]. apply Hkeep; [done|]. eapply Hne; [done|]. by rewrite Hph0.
    + apply list_elem_of_singleton in Ht'. injection Ht' as -> ->.
      eexists. split; [apply Hnew|done].
  - intros t' k' Hi HA. apply Hlook in Hi as [[-> ->]|[Hnei Hi]].
    + split; [apply elem_of_app; right; by left|].
      exists deadline. apply elem_of_app; right; by left.
    + destruct (Hp _ _ Hi HA) as [Hin [d Hd]]. split.
      * apply elem_of_app; by left.
      * exists d. apply elem_of_app; by left.
Qed.

(** A call that is not pending has no listener and no timer. *)
Lemma Inv_not_pending t k s :
  Inv s -> tasks s !! t = Some k -> phase k <> Awaiting ->
  removeEventListener t (packetListeners s) = packetListeners s /\
  clearTimeout t (timers s) = timers s.
Proof.
  intros HI Hk HA. split.
  - apply removeEventListener_absent. intros Hin.
    destruct (inv_listeners _ HI _ Hin) as (k0 & Hk0 & Hph0). congruence.
  - apply clearTimeout_absent. intros d Hin.
    destruct (inv_timers _ HI _ _ Hin) as (k0 & Hk0 & Hph0). congruence.
Qed.

(** A call that is neither queued nor pending returns or throws. *)
Lemma Inv_settle t k o s :
  Inv s -> tasks s !! t = Some k ->
  phase k <> Queued -> phase k <> Awaiting -> (forall o', phase k <> Settled o') ->
  Inv (settle t k o s).
Proof.
  intros HI Hk HQ HA HS. unfold settle.
  destruct (usesMutex (call k)) eqn:Hu.
  - destruct (Inv_not_pending _ _ _ HI Hk HA) as [Hls Htms].
    eapply Inv_leave; eauto.
    unfold holdsMutex. rewrite Hu. simpl.
    pose proof (inv_phase _ HI _ _ Hk) as Hok.
    destruct (phase k) eqn:Hph; try done; try (by edestruct HS);
      simpl in *; by destruct (call k).
  - eapply Inv_setPhase; eauto; try done.
    by rewrite holdsMutex_withPhase_Settled.
Qed.

(** The pending exchange resolves or is rejected; [s'] is the client
    without the listener and the timer of the call. *)
Lemma Inv_settlePromise t k o s s' :
  Inv s -> tasks s !! t = Some k ->
  tasks s' = tasks s -> mutex s' = mutex s ->
  packetListeners s' = removeEventListener t (packetListeners s) ->
  timers s' = clearTimeout t (timers s) ->
  Inv (settlePromise t k o s').
Proof.
  intros HI Hk Hts Hmx Hls Htms. unfold settlePromise.
  destruct (phase k) eqn:Hph;
    try (destruct (Inv_not_pending _ _ _ HI Hk) as [Hls' Htms']; [congruence|];
         apply (Inv_ext s); [done|done|congruence|congruence|done]).
  unfold settle.
  pose proof (inv_phase _ HI _ _ Hk) as Hok. rewrite Hph in Hok.
  assert (Hu : usesMutex (call k) = true) by (simpl in Hok; by destruct (call k)).
  rewrite Hu. eapply Inv_leave; eauto.
  unfold holdsMutex. by rewrite Hu, Hph.
Qed.

Lemma Inv_emit es s : Inv s -> Inv (emit es s).
Proof. by apply Inv_ext. Qed.

Lemma Inv_disconnect s : Inv s -> Inv (disconnect s).
Proof. apply Inv_ext; unfold disconnect; simpl; by destruct (gattServer s). Qed.

Lemma Inv_sendCheck t k s :
  Inv s -> tasks s !! t = Some k -> phase k = Acquired -> Inv (sendCheck t k s).
Proof.
  intros HI Hk Hph. unfold sendCheck. destruct (channel s).
  - pose proof (inv_phase _ HI _ _ Hk) as Hok.
    eapply Inv_setPhase; [by apply Inv_emit|exact Hk|congruence..| |].
    + rewrite Hph in Hok. done.
    + unfold holdsMutex. simpl. rewrite Hph. done.
  - apply Inv_settle; [done|done|congruence..].
Qed.

Lemma Inv_sendWrite t k s :
  Inv s -> tasks s !! t = Some k -> phase k = Sleeping -> Inv (sendWrite t k s).
Proof.
  intros HI Hk Hph. unfold sendWrite. destruct (channel s).
  - pose proof (inv_phase _ HI _ _ Hk) as Hok.
    eapply Inv_setPhase; [by apply Inv_emit|exact Hk|congruence..| |].
    + rewrite Hph in Hok. done.
    + unfold holdsMutex. simpl. rewrite Hph. done.
  - apply Inv_settle; [done|done|congruence..].
Qed.

Lemma Inv_sendDone t k s :
  Inv s -> tasks s !! t = Some k -> phase k = Writing -> Inv (sendDone t k s).
Proof.
  intros HI Hk Hph. unfold sendDone.
  destruct (call k) as [packet timeoutMs|bytes force|] eqn:Hc; [| |done].
  - destruct (oneWay packet) eqn:Hone.
    + apply Inv_settle; [by apply Inv_emit|done|congruence..].
    + eapply (Inv_register t k packet timeoutMs _ s); eauto.
  - apply Inv_settle; [by apply Inv_emit|done|congruence..].
Qed.

Lemma Inv_listener t received s : Inv s -> Inv (listener t received s).
Proof.
  intros HI. unfold listener.
  destruct (tasks s !! t) as [k|] eqn:Hk; [|done].
  destruct (call k); [|done..].
  destruct (isValidResponse packet received); [|done].
  by eapply (Inv_settlePromise t k _ s).
Qed.

Lemma Inv_listeners received l s :
  Inv s -> Inv (fold_left (fun s' t => listener t received s') l s).
Proof.
  revert s. induction l as [|t l IH]; intros s HI; simpl; [done|].
  apply IH. by apply Inv_listener.
Qed.

Lemma Inv_dispatchPacketReceived received s :
  Inv s -> Inv (dispatchPacketReceived received s).
Proof. intros HI. unfold dispatchPacketReceived. apply Inv_listeners. by apply Inv_emit. Qed.

Lemma Inv_onCharacteristicValueChanged bytes s :
  Inv s -> Inv (onCharacteristicValueChanged bytes s).
Proof.
  intros HI. unfold onCharacteristicValueChanged.
  destruct (fromBytes bytes) as [packet|]; [|done].
  destruct (inResponseCommandId (command packet)); [|apply Inv_emit];
    apply Inv_dispatchPacketReceived; by apply Inv_emit.
Qed.

Lemma Inv_timerFired t s :
  Inv s -> Inv (onTimeout t (withTimers (clearTimeout t (timers s)) s)).
Proof.
  intros HI. unfold onTimeout.
  change (tasks (withTimers ?l ?x)) with (tasks x).
  destruct (tasks s !! t) as [k|] eqn:Hk.
  - destruct (call k) as [packet timeoutMs|bytes force|] eqn:Hc.
    + by eapply (Inv_settlePromise t k _ s).
    + destruct (Inv_not_pending _ _ _ HI Hk) as [_ Htms].
      * pose proof (inv_phase _ HI _ _ Hk) as Hok. rewrite Hc in Hok.
        intros HA. by rewrite HA in Hok.
      * by apply (Inv_ext s).
    + destruct (Inv_not_pending _ _ _ HI Hk) as [_ Htms].
      * pose proof (inv_phase _ HI _ _ Hk) as Hok. rewrite Hc in Hok.
        intros HA. by rewrite HA in Hok.
      * by apply (Inv_ext s).
  - apply (Inv_ext s); try done. simpl. apply clearTimeout_absent.
    intros d Hd. destruct (inv_timers _ HI _ _ Hd) as (k & Hk' & _). congruence.
Qed.

Lemma Inv_connect_phase t k ph s :
  Inv s -> tasks s !! t = Some k ->
  phaseOK Connect (phase k) = true -> (forall o, phase k <> Settled o) ->
  phaseOK Connect ph = true -> inSection ph = false ->
  Inv (setPhase t ph s).
Proof.
  intros HI Hk Hok HS Hok' Hsec.
  pose proof (inv_phase _ HI _ _ Hk) as Hokk.
  assert (call k = Connect) as Hc.
  { destruct (phase k) eqn:Hph; simpl in *; try done; try (by destruct (call k)).
    by edestruct HS. }
  eapply Inv_setPhase; eauto.
  - intros HQ. by rewrite HQ in Hok.
  - intros HA. by rewrite HA in Hok.
  - intros ->. done.
  - intros ->. done.
  - by rewrite Hc.
  - unfold holdsMutex. simpl. by rewrite Hc.
Qed.

Lemma Inv_resume t k r s s' :
  Inv s -> tasks s !! t = Some k -> resume t k r s = Some s' -> Inv s'.
Proof.
  intros HI Hk. unfold resume.
  destruct (phase k) eqn:Hph; destruct r; try done; intros [= <-].
  - by apply Inv_sendCheck.
  - by apply Inv_sendWrite.
  - by apply Inv_sendDone.
  - apply Inv_settle; [done|done|congruence..].
  - unfold connectDevice. destruct (gatt d).
    + eapply Inv_connect_phase; [apply Inv_emit; by apply (Inv_ext s)|exact Hk|..];
        rewrite ?Hph; try done.
    + apply Inv_settle; [done|done|congruence..].
  - apply Inv_settle; [done|done|congruence..].
  - eapply Inv_connect_phase; eauto; rewrite ?Hph; done.
  - apply Inv_settle; [done|done|congruence..].
  - unfold connectSelect. destruct (findSuitableBluetoothCharacteristic g).
    + eapply Inv_connect_phase;
        [apply Inv_emit; by apply (Inv_ext s)|exact Hk|..]; rewrite ?Hph; try done.
    + apply Inv_settle; [by apply Inv_emit|done|congruence..].
  - apply Inv_settle; [done|done|congruence..].
  - unfold connectAssign.
    eapply Inv_connect_phase; [by apply (Inv_ext s)|exact Hk|..]; rewrite ?Hph; done.
  - apply Inv_settle; [done|done|congruence..].
  - unfold connectFinish. apply Inv_settle; [by apply Inv_emit|done|congruence..].
  - unfold connectFinish. apply Inv_settle; [by do 2 apply Inv_emit|done|congruence..].
Qed.

Lemma Inv_invoke c s : Inv s -> Inv (invoke c s).
Proof.
  intros HI. unfold invoke. destruct c as [packet timeoutMs|bytes [|]|].
  - by apply Inv_acquire.
  - apply Inv_sendCheck; [|apply lookup_spawn_new|done].
    apply Inv_spawn; done.
  - by apply Inv_acquire.
  - unfold connectBegin. apply Inv_spawn; try done.
    apply Inv_emit. by apply Inv_disconnect.
Qed.

Lemma Inv_step a s s' : Inv s -> step a s = Some s' -> Inv s'.
Proof.
  intros HI. destruct a; simpl.
  - intros [= <-]. by apply Inv_invoke.
  - intros [= <-]. by apply Inv_disconnect.
  - destruct (tasks s !! t) as [k|] eqn:Hk; [|done]. by apply Inv_resume.
  - case_decide; [|done]. intros [= <-].
    pose proof (dispatchGattServerDisconnected_frame d (disconnectListeners s) s)
      as (Ht & Hm & Hl & Htm & _).
    by apply (Inv_ext s).
  - case_decide; [|done]. intros [= <-]. by apply Inv_onCharacteristicValueChanged.
  - destruct (deadlineOf t (timers s)); [|done].
    destruct (_ <=? _)%Z; [|done]. intros [= <-]. by apply Inv_timerFired.
  - destruct (_ <=? _)%Z; [|done]. intros [= <-]. by apply (Inv_ext s).
  - intros [= <-]. by apply (Inv_ext s).
Qed.

Lemma Inv_run acts s s' : Inv s -> run acts s = Some s' -> Inv s'.
Proof.
  revert s. induction acts as [|a acts IH]; intros s HI; simpl.
  - by intros [= <-].
  - destruct (step a s) as [s1|] eqn:Hs; [|done].
    apply IH. by eapply Inv_step.
Qed.

Lemma reachable_Inv s : reachable s -> Inv s.
Proof. intros (interval & acts & Hrun). eapply Inv_run; [apply Inv_newClient|done]. Qed.

End Invariant.

(** ** What settling a call changes *)

Section Settling.
Context `{Collaborators}.

Lemma release_frame s :
  trace (release s) = trace s /\ gattServer (release s) = gattServer s /\
  channel (release s) = channel s /\ info (release s) = info s /\
  packetListeners (release s) = packetListeners s /\ timers (release s) = timers s /\
  clock (release s) = clock s /\ disconnectListeners (release s) = disconnectListeners s /\
  valueListeners (release s) = valueListeners s.
Proof. unfold release. by destruct (queue (mutex s)). Qed.

Lemma settle_frame t k o s :
  trace (settle t k o s) = trace s /\ gattServer (settle t k o s) = gattServer s /\
  channel (settle t k o s) = channel s /\ info (settle t k o s) = info s /\
  packetListeners (settle t k o s) = packetListeners s /\
  timers (settle t k o s) = timers s /\ clock (settle t k o s) = clock s /\
  disconnectListeners (settle t k o s) = disconnectListeners s /\
  valueListeners (settle t k o s) = valueListeners s.
Proof.
  unfold settle. destruct (usesMutex (call k)); [|done].
  apply (release_frame (setPhase t (Settled o) s)).
Qed.

Lemma settle_trace t k o s : trace (settle t k o s) = trace s.
Proof. apply settle_frame. Qed.

(** In a state the client reaches, the call that settles is not the
    waiter that inherits the mutex. *)
Lemma settle_phase t k o s s1 :
  Inv s -> tasks s !! t = Some k -> phase k <> Queued ->
  tasks s1 = tasks s -> mutex s1 = mutex s ->
  tasks (settle t k o s1) !! t = Some (withPhase (Settled o) k).
Proof.
  intros HI Hk HQ Hts Hmx. unfold settle.
  assert (Hset : tasks (setPhase t (Settled o) s1) !! t = Some (withPhase (Settled o) k)).
  { apply lookup_setPhase_eq. by rewrite Hts. }
  destruct (usesMutex (call k)); [|done].
  unfold release. change (mutex (setPhase ?a ?b ?x)) with (mutex x). rewrite Hmx.
  destruct (queue (mutex s)) as [|h q] eqn:Hq; [done|].
  rewrite lookup_setPhase_ne; [done|]. intros ->.
  destruct (inv_queue _ HI t) as (k0 & Hk0 & Hph0); [rewrite Hq; left|]. congruence.
Qed.

(** The other calls keep their place, except the waiter that is admitted. *)
Lemma settle_other t k o s j :
  j <> t -> head (queue (mutex s)) <> Some j ->
  tasks (settle t k o s) !! j = tasks s !! j.
Proof.
  intros Hne Hhead. unfold settle.
  destruct (usesMutex (call k)); [|by apply lookup_setPhase_ne].
  unfold release. change (mutex (setPhase ?a ?b ?x)) with (mutex x).
  destruct (queue (mutex s)) as [|h q] eqn:Hq.
  - by apply lookup_setPhase_ne.
  - rewrite lookup_setPhase_ne; [by apply lookup_setPhase_ne|].
    intros ->. by destruct Hhead.
Qed.

Lemma settle_mutex t k o s s1 :
  Inv s -> tasks s1 = tasks s -> mutex s1 = mutex s ->
  if usesMutex (call k) then handedOver s (settle t k o s1)
  else mutex (settle t k o s1) = mutex s.
Proof.
  intros HI Hts Hmx. unfold settle, handedOver.
  destruct (usesMutex (call k)); [|done].
  unfold release. change (mutex (setPhase ?a ?b ?x)) with (mutex x). rewrite Hmx.
  destruct (queue (mutex s)) as [|h q] eqn:Hq; [done|]. split; [done|].
  destruct (inv_queue _ HI h) as (k0 & Hk0 & Hph0); [rewrite Hq; left|].
  assert (exists kh, tasks (setPhase t (Settled o) s1) !! h = Some kh) as [kh Hkh].
  { destruct (decide (t = h)) as [->|Hne].
    - eexists. apply lookup_setPhase_eq. by rewrite Hts.
    - exists k0. rewrite lookup_setPhase_ne by done. by rewrite Hts. }
  unfold phaseAt. by erewrite lookup_setPhase_eq.
Qed.

End Settling.

(** ** What a turn leaves alone *)

Section Frames.
Context `{Collaborators}.

(** The listener of a pending exchange prints nothing and does not touch
    the session. *)
Lemma listener_frame t received s :
  trace (listener t received s) = trace s /\
  gattServer (listener t received s) = gattServer s /\
  channel (listener t received s) = channel s.
Proof.
  unfold listener. destruct (tasks s !! t) as [k|]; [|done].
  destruct (call k); [|done..].
  destruct (isValidResponse packet received); [|done].
  unfold settlePromise. destruct (phase k); try done.
  pose proof (settle_frame t k (ReturnedPacket received)
    (withPacketListeners (removeEventListener t (packetListeners s))
       (withTimers (clearTimeout t (timers s)) s))) as Hf.
  simpl in Hf. tauto.
Qed.

Lemma listeners_frame received l s :
  let s' := fold_left (fun s' t => listener t received s') l s in
  trace s' = trace s /\ gattServer s' = gattServer s /\ channel s' = channel s.
Proof.
  revert s. induction l as [|t l IH]; intros s; simpl; [done|].
  destruct (IH (listener t received s)) as (-> & -> & ->).
  apply listener_frame.
Qed.

Lemma dispatchPacketReceived_frame received s :
  trace (dispatchPacketReceived received s)
    = trace s ++ [Dispatch (PacketReceivedEvent received)] /\
  gattServer (dispatchPacketReceived received s) = gattServer s /\
  channel (dispatchPacketReceived received s) = channel s.
Proof.
  unfold dispatchPacketReceived.
  pose proof (listeners_frame received (packetListeners s)
    (emit [Dispatch (PacketReceivedEvent received)] s)) as Hf.
  simpl in Hf. tauto.
Qed.


Lemma onTimeout_frame t s :
  trace (onTimeout t s) = trace s /\
  gattServer (onTimeout t s) = gattServer s /\ channel (onTimeout t s) = channel s.
Proof.
  unfold onTimeout. destruct (tasks s !! t) as [k|]; [|done].
  destruct (call k); [|done..].
  unfold settlePromise. destruct (phase k); try done.
  pose proof (settle_frame t k (Thrown (JsError (timeoutMessage packet)))
    (withPacketListeners (removeEventListener t (packetListeners s)) s)) as Hf.
  simpl in Hf. tauto.
Qed.

Lemma settle_session t k o s x :
  gattServer x = gattServer s -> channel x = channel s ->
  gattServer (settle t k o x) = gattServer s /\ channel (settle t k o x) = channel s.
Proof.
  intros Hg Hc. pose proof (settle_frame t k o x) as (_ & -> & -> & _). done.
Qed.

Lemma sendCheck_session t k s :
  gattServer (sendCheck t k s) = gattServer s /\ channel (sendCheck t k s) = channel s.
Proof.
  unfold sendCheck. destruct (channel s) eqn:Hc.
  - simpl. by rewrite Hc.
  - rewrite <- Hc. by apply settle_session.
Qed.

Lemma sendWrite_session t k s :
  gattServer (sendWrite t k s) = gattServer s /\ channel (sendWrite t k s) = channel s.
Proof.
  unfold sendWrite. destruct (channel s) eqn:Hc.
  - simpl. by rewrite Hc.
  - rewrite <- Hc. by apply settle_session.
Qed.

Lemma sendDone_session t k s :
  gattServer (sendDone t k s) = gattServer s /\ channel (sendDone t k s) = channel s.
Proof.
  unfold sendDone. destruct (call k); [| |done].
  - destruct (oneWay packet); [|done]. by apply settle_session.
  - by apply settle_session.
Qed.

(** The session fields change in two places: a disconnect clears them,
    and lines 83-84 assign them. *)
Lemma step_session a s s' :
  step a s = Some s' ->
  (gattServer s' = gattServer s /\ channel s' = channel s) \/
  (disconnects a = true /\ gattServer s' = None /\ channel s' = None) \/
  (assigns a s = true /\ is_Some (gattServer s') /\ is_Some (channel s')).
Proof.
  destruct a; simpl.
  - intros [= <-]. unfold invoke. destruct c as [packet timeoutMs|bytes [|]|].
    + left. unfold acquire. by destruct (locked _).
    + left. apply (sendCheck_session _ _ (spawn (SendRaw bytes true) Acquired s)).
    + left. unfold acquire. by destruct (locked _).
    + right. left. unfold connectBegin, disconnect. simpl. by destruct (gattServer s).
  - intros [= <-]. right. left. unfold disconnect. simpl. by destruct (gattServer s).
  - unfold assigns, phaseAt. destruct (tasks s !! t) as [k|] eqn:Hk; [|done]. simpl.
    unfold resume. destruct (phase k) eqn:Hph; destruct r; try done; intros [= <-];
      try (left; by apply settle_session).
    + left. apply sendCheck_session.
    + left. apply sendWrite_session.
    + left. apply sendDone_session.
    + left. unfold connectDevice. destruct (gatt d); [done|]. by apply settle_session.
    + by left.
    + left. unfold connectSelect. destruct (findSuitableBluetoothCharacteristic g); [done|].
      by apply settle_session.
    + right. right. simpl. eauto.
  - case_decide as Hd; [|done]. intros [= <-]. right. left.
    pose proof (dispatchGattServerDisconnected_session d _ s Hd) as (Hg & Hc & _).
    done.
  - case_decide; [|done]. intros [= <-]. left.
    unfold onCharacteristicValueChanged. destruct (fromBytes bytes) as [p|]; [|done].
    pose proof (dispatchPacketReceived_frame p
      (emit [Dispatch (RawPacketReceivedEvent bytes)] s)) as (_ & Hg & Hc).
    by destruct (inResponseCommandId (command p)).
  - destruct (deadlineOf t (timers s)); [|done].
    destruct (_ <=? _)%Z; [|done]. intros [= <-]. left.
    pose proof (onTimeout_frame t (withTimers (clearTimeout t (timers s)) s)) as Hf.
    simpl in Hf. tauto.
  - destruct (_ <=? _)%Z; [|done]. intros [= <-]. by left.
  - intros [= <-]. by left.
Qed.

End Frames.

(** ** The phase of [connect()] is not read *)

Section Blind.
Context `{Collaborators}.
Variables (t : nat) (ph : Phase).

Lemma setPhase_comm t' ph' s :
  t <> t' -> setPhase t' ph' (setPhase t ph s) = setPhase t ph (setPhase t' ph' s).
Proof.
  intros Hne. unfold setPhase, withTasks. simpl. f_equal.
  by apply list_alter_alter_ne.
Qed.

Lemma spawn_blind c p s :
  t < length (tasks s) -> spawn c p (setPhase t ph s) = setPhase t ph (spawn c p s).
Proof.
  intros Hlt. unfold spawn, setPhase, withTasks. simpl. f_equal.
  by rewrite alter_app_l.
Qed.

Lemma release_blind s :
  t ∉ queue (mutex s) -> release (setPhase t ph s) = setPhase t ph (release s).
Proof.
  intros Hq. unfold release. change (mutex (setPhase t ph s)) with (mutex s).
  destruct (queue (mutex s)) as [|h q]; [done|].
  apply not_elem_of_cons in Hq as [Hne _].
  apply (setPhase_comm h Acquired (withMutex {| locked := true; queue := q |} s)). done.
Qed.

Lemma settle_blind t' k' o s :
  t <> t' -> t ∉ queue (mutex s) ->
  settle t' k' o (setPhase t ph s) = setPhase t ph (settle t' k' o s).
Proof.
  intros Hne Hq. unfold settle. rewrite (setPhase_comm _ _ _ Hne).
  destruct (usesMutex (call k')); [|done]. by apply release_blind.
Qed.

Lemma acquire_blind c s :
  t < length (tasks s) ->
  acquire (length (tasks s)) (spawn c Queued (setPhase t ph s))
  = setPhase t ph (acquire (length (tasks s)) (spawn c Queued s)).
Proof.
  intros Hlt. rewrite spawn_blind by done. unfold acquire.
  change (mutex (setPhase t ph ?x)) with (mutex x).
  destruct (locked _); rewrite setPhase_comm by lia; reflexivity.
Qed.

Lemma connectCall_lookup s t' :
  connectCall s t -> t <> t' -> tasks (setPhase t ph s) !! t' = tasks s !! t'.
Proof. intros _ Hne. by apply lookup_setPhase_ne. Qed.

Lemma connectCall_lt s : connectCall s t -> t < length (tasks s).
Proof. intros [(k & Hk & _) _]. by eapply lookup_lt_Some. Qed.

Lemma connectCall_ext s x :
  tasks x = tasks s -> mutex x = mutex s -> connectCall s t -> connectCall x t.
Proof. unfold connectCall. by intros -> ->. Qed.

Lemma connectCall_setPhase t' ph' s :
  connectCall s t -> connectCall (setPhase t' ph' s) t.
Proof.
  intros [(k & Hk & Hc) Hq]. split; [|done].
  destruct (decide (t' = t)) as [->|Hne].
  - exists (withPhase ph' k). split; [by apply lookup_setPhase_eq|done].
  - exists k. by rewrite lookup_setPhase_ne.
Qed.

Lemma connectCall_release s : connectCall s t -> connectCall (release s) t.
Proof.
  intros Hcc. unfold release. destruct (queue (mutex s)) as [|h q] eqn:Hq.
  - destruct Hcc as [Hk _]. split; [done|]. simpl. apply not_elem_of_nil.
  - apply connectCall_setPhase. destruct Hcc as [Hk Hnin]. split; [done|].
    simpl. rewrite Hq in Hnin. by apply not_elem_of_cons in Hnin as [_ ?].
Qed.

Lemma connectCall_settle t' k' o s :
  connectCall s t -> connectCall (settle t' k' o s) t.
Proof.
  intros Hcc. unfold settle.
  destruct (usesMutex (call k')); [apply connectCall_release|];
    by apply connectCall_setPhase.
Qed.

Lemma listener_blind t' received s :
  connectCall s t ->
  listener t' received (setPhase t ph s) = setPhase t ph (listener t' received s) /\
  connectCall (listener t' received s) t.
Proof.
  intros Hcc. unfold listener. destruct (decide (t = t')) as [<-|Hne].
  - destruct Hcc as [(k & Hk & Hc) Hq].
    rewrite (lookup_setPhase_eq _ _ _ _ Hk), Hk. cbn [call withPhase]. rewrite Hc.
    split; [done|]. split; [by eauto|done].
  - rewrite lookup_setPhase_ne by done.
    destruct (tasks s !! t') as [k'|]; [|done].
    destruct (call k'); [|done..].
    destruct (isValidResponse packet received); [|done].
    unfold settlePromise. destruct (phase k'); try (split; [done|by apply (connectCall_ext s)]).
    split.
    + apply (settle_blind t' k' _
        (withPacketListeners (removeEventListener t' (packetListeners s))
           (withTimers (clearTimeout t' (timers s)) s))); [done|apply Hcc].
    + apply connectCall_settle. by apply (connectCall_ext s).
Qed.

Lemma listeners_blind received l s :
  connectCall s t ->
  fold_left (fun s' t' => listener t' received s') l (setPhase t ph s)
  = setPhase t ph (fold_left (fun s' t' => listener t' received s') l s).
Proof.
  revert s. induction l as [|t' l IH]; intros s Hcc; cbn [fold_left]; [done|].
  destruct (listener_blind t' received s Hcc) as [-> Hcc']. by apply IH.
Qed.

Lemma onTimeout_blind t' s :
  connectCall s t ->
  onTimeout t' (setPhase t ph s) = setPhase t ph (onTimeout t' s).
Proof.
  intros Hcc. unfold onTimeout. destruct (decide (t = t')) as [<-|Hne].
  - destruct Hcc as [(k & Hk & Hc) Hq].
    rewrite (lookup_setPhase_eq _ _ _ _ Hk), Hk. cbn [call withPhase]. by rewrite Hc.
  - rewrite lookup_setPhase_ne by done.
    destruct (tasks s !! t') as [k'|]; [|done].
    destruct (call k'); [|done..].
    unfold settlePromise. destruct (phase k'); try done.
    apply (settle_blind t' k' _
      (withPacketListeners (removeEventListener t' (packetListeners s)) s));
      [done|apply Hcc].
Qed.

Lemma resume_blind t' k' r s s' :
  connectCall s t -> t <> t' ->
  resume t' k' r s = Some s' ->
  resume t' k' r (setPhase t ph s) = Some (setPhase t ph s').
Proof.
  intros Hcc Hne. pose proof (proj2 Hcc) as Hq. unfold resume.
  destruct (phase k'); destruct r; try done; intros [= <-]; f_equal;
    try (by apply settle_blind).
  - unfold sendCheck. change (channel (setPhase t ph s)) with (channel s).
    destruct (channel s); [|by apply settle_blind].
    apply (setPhase_comm _ _ (emit [Sleep (packetIntervalMs s)] s)). done.
  - unfold sendWrite. change (channel (setPhase t ph s)) with (channel s).
    destruct (channel s) as [c|]; [|by apply settle_blind].
    apply (setPhase_comm _ _ (emit [WriteValueWithoutResponse c (bytesOf (call k'))] s)).
    done.
  - unfold sendDone. destruct (call k'); [| |done].
    + destruct (oneWay packet).
      * by apply (settle_blind t' k' _ (emit _ s)).
      * match goal with |- setPhase t' Awaiting ?x = setPhase t ph (setPhase t' Awaiting ?y) =>
          apply (setPhase_comm t' Awaiting y) end. done.
    + by apply (settle_blind t' k' _ (emit _ s)).
  - unfold connectDevice. destruct (gatt d); [|by apply settle_blind].
    match goal with |- setPhase t' ?p ?x = setPhase t ph (setPhase t' ?p ?y) =>
      apply (setPhase_comm t' p y) end. done.
  - by apply setPhase_comm.
  - unfold connectSelect. destruct (findSuitableBluetoothCharacteristic g).
    + match goal with |- setPhase t' ?p ?x = setPhase t ph (setPhase t' ?p ?y) =>
        apply (setPhase_comm t' p y) end. done.
    + by apply (settle_blind t' k' _ (emit _ s)).
  - unfold connectAssign.
    match goal with |- setPhase t' ?p ?x = setPhase t ph (setPhase t' ?p ?y) =>
      apply (setPhase_comm t' p y) end. done.
  - unfold connectFinish. by apply (settle_blind t' k' _ (emit _ s)).
  - unfold connectFinish. by apply (settle_blind t' k' _ (emit _ (emit _ s))).
Qed.

(** Every turn other than the continuation of call [t] does the same,
    whatever the phase of [t]. *)
Lemma step_blind a s s' :
  connectCall s t -> (forall r, a <> Resume t r) ->
  step a s = Some s' ->
  step a (setPhase t ph s) = Some (setPhase t ph s').
Proof.
  intros Hcc Hres. pose proof (connectCall_lt _ Hcc) as Hlt.
  pose proof (proj2 Hcc) as Hq. destruct a; cbn [step].
  - intros [= <-]. f_equal. unfold invoke.
    change (tasks (setPhase t ph s)) with (alter (withPhase ph) t (tasks s)).
    rewrite length_alter.
    destruct c as [packet timeoutMs|bytes [|]|].
    + by apply acquire_blind.
    + rewrite spawn_blind by done. unfold sendCheck.
      change (channel (setPhase t ph ?x)) with (channel x).
      destruct (channel _).
      * match goal with |- setPhase ?t' ?p ?x = setPhase t ph (setPhase ?t' ?p ?y) =>
          apply (setPhase_comm t' p y) end. lia.
      * apply settle_blind; [lia|done].
    + by apply acquire_blind.
    + unfold connectBegin, disconnect.
      change (gattServer (emit ?es (setPhase t ph ?x))) with (gattServer x).
      change (gattServer (emit ?es ?x)) with (gattServer x).
      destruct (gattServer s);
        match goal with |- spawn ?c ?p ?x = setPhase t ph (spawn ?c ?p ?y) =>
          apply (spawn_blind c p y) end; done.
  - intros [= <-]. f_equal. unfold disconnect.
    change (gattServer (emit ?es (setPhase t ph ?x))) with (gattServer x).
    change (gattServer (emit ?es ?x)) with (gattServer x).
    by destruct (gattServer s).
  - assert (t <> t0) as Hne by (intros ->; by eapply Hres).
    rewrite lookup_setPhase_ne by done.
    destruct (tasks s !! t0) as [k'|]; [|done]. by apply resume_blind.
  - change (disconnectListeners (setPhase t ph s)) with (disconnectListeners s).
    case_decide; [|done]. intros [= <-]. f_equal.
    apply dispatchGattServerDisconnected_setPhase.
  - change (valueListeners (setPhase t ph s)) with (valueListeners s).
    case_decide; [|done]. intros [= <-]. f_equal.
    unfold onCharacteristicValueChanged. destruct (fromBytes bytes) as [p|]; [|done].
    unfold dispatchPacketReceived.
    change (packetListeners (emit ?es (emit ?es' (setPhase t ph ?x))))
      with (packetListeners x).
    change (packetListeners (emit ?es (emit ?es' ?x))) with (packetListeners x).
    pose proof (listeners_blind p (packetListeners s)
      (emit [Dispatch (PacketReceivedEvent p)] (emit [Dispatch (RawPacketReceivedEvent bytes)] s))
      (connectCall_ext s _ eq_refl eq_refl Hcc)) as Hl.
    destruct (inResponseCommandId (command p)).
    + exact Hl.
    + exact (f_equal (emit _) Hl).
  - change (timers (setPhase t ph s)) with (timers s).
    change (clock (setPhase t ph s)) with (clock s).
    destruct (deadlineOf t0 (timers s)); [|done].
    destruct (_ <=? _)%Z; [|done]. intros [= <-]. f_equal.
    apply (onTimeout_blind t0 (withTimers (clearTimeout t0 (timers s)) s)).
    by apply (connectCall_ext s).
  - destruct (_ <=? _)%Z; [|done]. by intros [= <-].
  - by intros [= <-].
Qed.

End Blind.

(** ** Channel selection and the session *)

Section Session.
Context `{Collaborators}.




Lemma isConnected_spec s :
  isConnected s = true <-> is_Some (gattServer s) /\ is_Some (channel s).
Proof.
  unfold isConnected. rewrite andb_true_iff.
  destruct (gattServer s), (channel s); simpl; split; intros [? ?];
    split; try done; try (by eexists); by apply is_Some_None in H0 || by apply is_Some_None in H1.
Qed.



End Session.

(** ** The exchange *)

Section Exchange.
Context `{Collaborators}.

Lemma step_resume s t k r :
  tasks s !! t = Some k -> step (Resume t r) s = resume t k r s.
Proof. intros Hk. cbn [step]. by rewrite Hk. Qed.

Lemma isValidResponse_spec packet received :
  isValidResponse packet received = true <->
  validResponseIds packet = [] \/ command received ∈ validResponseIds packet.
Proof.
  unfold isValidResponse. rewrite orb_true_iff, Nat.eqb_eq, existsb_exists.
  split.
  - intros [Hlen|(i & Hin & Heq)].
    + left. by apply length_zero_iff_nil.
    + right. apply Z.eqb_eq in Heq as <-. by apply list_elem_of_In.
  - intros [->|Hin]; [by left|].
    right. exists (command received). split; [by apply list_elem_of_In|apply Z.eqb_refl].
Qed.

Lemma pending_usesMutex s t packet timeoutMs :
  pendingRequest s t packet timeoutMs ->
  holdsMutex {| call := SendPacketWaitResponse packet timeoutMs; phase := Awaiting |} = true.
Proof. done. Qed.

(** While an exchange is pending, its listener is the only one. *)
Lemma pending_listeners s t packet timeoutMs :
  Inv s -> pendingRequest s t packet timeoutMs -> packetListeners s = [t].
Proof.
  intros HI Hp.
  destruct (inv_pending _ HI _ _ Hp eq_refl) as [Hin _].
  assert (Hall : forall t', t' ∈ packetListeners s -> t' = t).
  { intros t' Ht'. destruct (inv_listeners _ HI _ Ht') as (k' & Hk' & Hph').
    apply (inv_exclusive _ HI t' t k' _ Hk' Hp); [|done].
    pose proof (inv_phase _ HI _ _ Hk') as Hok. rewrite Hph' in Hok.
    unfold holdsMutex. rewrite Hph'. simpl in *. by destruct (call k'). }
  pose proof (inv_listeners_nodup _ HI) as Hnd.
  destruct (packetListeners s) as [|a l]; [by apply elem_of_nil in Hin|].
  assert (a = t) as -> by (apply Hall; left).
  destruct l as [|b l]; [done|].
  assert (b = t) as -> by (apply Hall; right; left).
  apply NoDup_cons in Hnd as [Hnin _]. destruct Hnin. left.
Qed.

(** The listener of a pending exchange, on a packet. *)
Lemma listener_pending s1 t packet timeoutMs received :
  tasks s1 !! t = Some {| call := SendPacketWaitResponse packet timeoutMs;
                          phase := Awaiting |} ->
  listener t received s1 =
    if isValidResponse packet received
    then settle t {| call := SendPacketWaitResponse packet timeoutMs; phase := Awaiting |}
           (ReturnedPacket received)
           (withPacketListeners (removeEventListener t (packetListeners s1))
              (withTimers (clearTimeout t (timers s1)) s1))
    else s1.
Proof. intros Hk. unfold listener. by rewrite Hk. Qed.

(** The timer callback of a pending exchange. *)
Lemma onTimeout_pending s1 t packet timeoutMs :
  tasks s1 !! t = Some {| call := SendPacketWaitResponse packet timeoutMs;
                          phase := Awaiting |} ->
  onTimeout t s1 =
    settle t {| call := SendPacketWaitResponse packet timeoutMs; phase := Awaiting |}
      (Thrown (JsError (timeoutMessage packet)))
      (withPacketListeners (removeEventListener t (packetListeners s1)) s1).
Proof. intros Hk. unfold onTimeout. by rewrite Hk. Qed.

(** The packet event reaches the pending exchange: a valid response
    resolves it, anything else leaves it as it is. *)
Lemma dispatch_pending s t packet timeoutMs received :
  Inv s -> pendingRequest s t packet timeoutMs ->
  let s' := dispatchPacketReceived received s in
  if isValidResponse packet received
  then tasks s' !! t = Some {| call := SendPacketWaitResponse packet timeoutMs;
                               phase := Settled (ReturnedPacket received) |} /\
       packetListeners s' = [] /\ deadlineOf t (timers s') = None /\
       handedOver s s'
  else tasks s' = tasks s /\ packetListeners s' = packetListeners s /\
       timers s' = timers s /\ mutex s' = mutex s.
Proof.
  intros HI Hp. cbv zeta. unfold dispatchPacketReceived.
  rewrite (pending_listeners _ _ _ _ HI Hp). cbn [fold_left].
  rewrite (listener_pending (emit [Dispatch (PacketReceivedEvent received)] s)
             t packet timeoutMs received Hp).
  destruct (isValidResponse packet received);
    [|cbn; by rewrite (pending_listeners _ _ _ _ HI Hp)].
  set (k := {| call := SendPacketWaitResponse packet timeoutMs; phase := Awaiting |}).
  set (s2 := withPacketListeners _ _).
  pose proof (settle_frame t k (ReturnedPacket received) s2)
    as (_ & _ & _ & _ & Hls & Htm & _).
  split_and!.
  - by apply (settle_phase t k _ s s2 HI Hp).
  - rewrite Hls. subst s2. cbn [packetListeners withPacketListeners withTimers emit].
    rewrite (pending_listeners _ _ _ _ HI Hp). cbn. by rewrite Nat.eqb_refl.
  - rewrite Htm. subst s2. cbn [timers withPacketListeners withTimers emit].
    apply deadlineOf_clearTimeout.
  - by apply (settle_mutex t k _ s s2).
Qed.

Lemma phaseAt_setPhase s t k ph :
  tasks s !! t = Some k -> phaseAt (setPhase t ph s) t = Some ph.
Proof. intros Hk. unfold phaseAt. by rewrite (lookup_setPhase_eq t ph s k Hk). Qed.

Lemma phaseAt_Some s t k : tasks s !! t = Some k -> phaseAt s t = Some (phase k).
Proof. unfold phaseAt. by intros ->. Qed.

Lemma notification_pending s t packet timeoutMs bytes received :
  Inv s -> pendingRequest s t packet timeoutMs -> fromBytes bytes = Some received ->
  let s' := onCharacteristicValueChanged bytes s in
  if isValidResponse packet received
  then tasks s' !! t = Some {| call := SendPacketWaitResponse packet timeoutMs;
                               phase := Settled (ReturnedPacket received) |} /\
       packetListeners s' = [] /\ deadlineOf t (timers s') = None /\
       handedOver s s'
  else tasks s' = tasks s /\ packetListeners s' = packetListeners s /\
       timers s' = timers s /\ mutex s' = mutex s.
Proof.
  intros HI Hp Hdec. unfold onCharacteristicValueChanged. rewrite Hdec.
  pose proof (dispatch_pending (emit [Dispatch (RawPacketReceivedEvent bytes)] s)
                t packet timeoutMs received (Inv_emit _ _ HI) Hp) as Hd.
  cbv zeta in *.
  destruct (inResponseCommandId (command received)); exact Hd.
Qed.

(** The waiter that inherits the mutex can run. *)
Lemma handedOver_next s s' :
  handedOver s s' ->
  (queue (mutex s) = [] -> mutex s' = {| locked := false; queue := [] |}) /\
  (forall h q, queue (mutex s) = h :: q ->
     mutex s' = {| locked := true; queue := q |} /\
     phaseAt s' h = Some Acquired /\
     is_Some (step (Resume h Fulfilled) s')).
Proof.
  unfold handedOver. destruct (queue (mutex s)) as [|h q].
  - intros Hm. split; [done|]. intros ? ? [=].
  - intros [Hm Hph]. split; [done|]. intros ? ? [= <- <-].
    split_and!; [done..|].
    unfold phaseAt in Hph. destruct (tasks s' !! h) as [kh|] eqn:Hkh; [|done].
    injection Hph as Hph. rewrite (step_resume _ _ _ _ Hkh). unfold resume.
    rewrite Hph. by eexists.
Qed.

End Exchange.

(** ** The critical section *)

Section CriticalSection.
Context `{Collaborators}.

Lemma stable_refl s : stable s s.
Proof. intros i k Hk Hkeep. eauto. Qed.

Lemma stable_trans s1 s2 s3 : stable s1 s2 -> stable s2 s3 -> stable s1 s3.
Proof.
  intros H12 H23 i k Hk Hkeep.
  destruct (H12 i k Hk Hkeep) as (k2 & Hk2 & Hc2 & Hkeep2).
  destruct (H23 i k2 Hk2 Hkeep2) as (k3 & Hk3 & Hc3 & Hkeep3).
  exists k3. split_and!; [done|congruence|done].
Qed.

Lemma stable_tasks s s' : tasks s' = tasks s -> stable s s'.
Proof. intros Hts i k Hk Hkeep. exists k. by rewrite Hts. Qed.

Lemma keeps_withPhase ph k :
  usesMutex (call k) = true ->
  (inSection ph = true \/ exists o, ph = Settled o) ->
  keeps (withPhase ph k).
Proof. by split. Qed.

(** A call moves to a phase of the critical section, or ends. *)
Lemma stable_setPhase t ph s :
  (inSection ph = true \/ exists o, ph = Settled o) -> stable s (setPhase t ph s).
Proof.
  intros Hph i k Hk [Hu Hkeep]. destruct (decide (t = i)) as [->|Hne].
  - exists (withPhase ph k). split; [by apply lookup_setPhase_eq|]. by split.
  - exists k. by rewrite lookup_setPhase_ne.
Qed.

(** A call outside the critical section moves. *)
Lemma stable_setPhase_outside t k ph s :
  tasks s !! t = Some k -> ~ keeps k -> stable s (setPhase t ph s).
Proof.
  intros Hk Hnot i k' Hk' Hkeep. destruct (decide (t = i)) as [->|Hne].
  - congruence.
  - exists k'. by rewrite lookup_setPhase_ne.
Qed.

Lemma stable_spawn c ph s : stable s (spawn c ph s).
Proof. intros i k Hk Hkeep. exists k. split; [by apply lookup_spawn_old|done]. Qed.

Lemma stable_release s : stable s (release s).
Proof.
  unfold release. destruct (queue (mutex s)) as [|h q].
  - by apply stable_tasks.
  - eapply stable_trans; [|apply stable_setPhase; by left]. by apply stable_tasks.
Qed.

Lemma stable_settle t k o s : stable s (settle t k o s).
Proof.
  unfold settle.
  assert (stable s (setPhase t (Settled o) s)) as Hs
    by (apply stable_setPhase; right; by eexists).
  destruct (usesMutex (call k)); [|done].
  eapply stable_trans; [done|apply stable_release].
Qed.

Lemma stable_acquire c s : stable s (acquire (length (tasks s)) (spawn c Queued s)).
Proof.
  assert (Hout : forall ph, stable s (setPhase (length (tasks s)) ph (spawn c Queued s))).
  { intros ph. eapply stable_trans; [apply (stable_spawn c Queued)|].
    eapply stable_setPhase_outside; [apply lookup_spawn_new|].
    intros [_ [Hsec|[o Ho]]]; done. }
  unfold acquire. destruct (locked _).
  - eapply stable_trans; [apply (Hout Queued)|]. by apply stable_tasks.
  - eapply stable_trans; [apply (Hout Acquired)|]. by apply stable_tasks.
Qed.

Lemma stable_emit es s s' : stable (emit es s) s' -> stable s s'.
Proof. intros Hs. eapply stable_trans; [|exact Hs]. by apply stable_tasks. Qed.

Lemma stable_listener t received s : stable s (listener t received s).
Proof.
  unfold listener. destruct (tasks s !! t) as [k|]; [|apply stable_refl].
  destruct (call k); try apply stable_refl.
  destruct (isValidResponse packet received); [|apply stable_refl].
  unfold settlePromise.
  destruct (phase k); try (by apply stable_tasks).
  eapply stable_trans; [|apply stable_settle]. by apply stable_tasks.
Qed.

Lemma stable_listeners received l s :
  stable s (fold_left (fun s' t => listener t received s') l s).
Proof.
  revert s. induction l as [|t l IH]; intros s; simpl; [apply stable_refl|].
  eapply stable_trans; [apply stable_listener|apply IH].
Qed.

Lemma stable_onTimeout t s : stable s (onTimeout t s).
Proof.
  unfold onTimeout. destruct (tasks s !! t) as [k|]; [|apply stable_refl].
  destruct (call k); try apply stable_refl.
  unfold settlePromise.
  destruct (phase k); try (by apply stable_tasks).
  eapply stable_trans; [|apply stable_settle]. by apply stable_tasks.
Qed.

Lemma stable_resume t k r s s' :
  tasks s !! t = Some k -> resume t k r s = Some s' -> stable s s'.
Proof.
  intros Hk. unfold resume.
  assert (Hout : forall ph, inSection (phase k) = false ->
            (forall o, phase k <> Settled o) -> forall x, tasks x = tasks s ->
            stable s (setPhase t ph x)).
  { intros ph Hsec Hset x Hx. eapply stable_trans; [by apply (stable_tasks s x)|].
    eapply stable_setPhase_outside; [by rewrite Hx|].
    intros [_ [Hsec'|[o Ho]]]; [congruence|by eapply Hset]. }
  destruct (phase k) eqn:Hph; destruct r; try done; intros [= <-];
    try apply stable_settle.
  - unfold sendCheck. destruct (channel s); [|apply stable_settle].
    apply stable_emit with (es := [Sleep (packetIntervalMs s)]).
    apply stable_setPhase. by left.
  - unfold sendWrite. destruct (channel s) as [c|]; [|apply stable_settle].
    apply stable_emit with (es := [WriteValueWithoutResponse c (bytesOf (call k))]).
    apply stable_setPhase. by left.
  - unfold sendDone. destruct (call k); [| |apply stable_refl].
    + destruct (oneWay packet).
      * eapply stable_trans; [|apply stable_settle]. by apply stable_tasks.
      * eapply stable_trans; [|apply stable_setPhase; by left]. by apply stable_tasks.
    + eapply stable_trans; [|apply stable_settle]. by apply stable_tasks.
  - unfold connectDevice. destruct (gatt d); [|apply stable_settle].
    apply Hout; done.
  - apply Hout; done.
  - unfold connectSelect. destruct (findSuitableBluetoothCharacteristic g).
    + apply Hout; done.
    + eapply stable_trans; [|apply stable_settle]. by apply stable_tasks.
  - unfold connectAssign. apply Hout; done.
  - unfold connectFinish. eapply stable_trans; [|apply stable_settle]. by apply stable_tasks.
  - unfold connectFinish. eapply stable_trans; [|apply stable_settle]. by apply stable_tasks.
Qed.

(** No turn takes a call out of its critical section other than by
    ending it. *)
Lemma step_stable a s s' : step a s = Some s' -> stable s s'.
Proof.
  destruct a; simpl.
  - intros [= <-]. unfold invoke. destruct c as [packet timeoutMs|bytes [|]|].
    + apply stable_acquire.
    + eapply stable_trans; [apply (stable_spawn (SendRaw bytes true) Acquired)|].
      unfold sendCheck. destruct (channel _); [|apply stable_settle].
      eapply stable_trans; [|apply stable_setPhase; by left]. by apply stable_tasks.
    + apply stable_acquire.
    + unfold connectBegin. eapply stable_trans; [|apply stable_spawn].
      apply stable_tasks. unfold disconnect. simpl. by destruct (gattServer s).
  - intros [= <-]. apply stable_tasks. unfold disconnect. simpl. by destruct (gattServer s).
  - destruct (tasks s !! t) as [k|] eqn:Hk; [|done]. by apply stable_resume.
  - case_decide; [|done]. intros [= <-]. apply stable_tasks.
    apply dispatchGattServerDisconnected_frame.
  - case_decide; [|done]. intros [= <-].
    unfold onCharacteristicValueChanged. destruct (fromBytes bytes) as [p|]; [|apply stable_refl].
    assert (stable s (dispatchPacketReceived p (emit [Dispatch (RawPacketReceivedEvent bytes)] s))).
    { unfold dispatchPacketReceived. eapply stable_trans; [|apply stable_listeners].
      by apply stable_tasks. }
    destruct (inResponseCommandId (command p)); [done|].
    eapply stable_trans; [done|]. by apply stable_tasks.
  - destruct (deadlineOf t (timers s)); [|done].
    destruct (_ <=? _)%Z; [|done]. intros [= <-].
    eapply stable_trans; [|apply stable_onTimeout]. by apply stable_tasks.
  - destruct (_ <=? _)%Z; [|done]. intros [= <-]. by apply stable_tasks.
  - intros [= <-]. by apply stable_tasks.
Qed.

(** *** The queue of the mutex *)

Lemma listeners_at_most_one s :
  Inv s -> packetListeners s = [] \/ exists t, packetListeners s = [t].
Proof.
  intros HI. destruct (packetListeners s) as [|t l] eqn:Hl; [by left|]. right.
  exists t. rewrite <- Hl.
  destruct (inv_listeners _ HI t) as (k & Hk & Hph); [rewrite Hl; left|].
  pose proof (inv_phase _ HI _ _ Hk) as Hok. rewrite Hph in Hok.
  destruct k as [c ph]. simpl in *. subst ph.
  destruct c as [packet timeoutMs| |]; try done.
  by apply (pending_listeners s t packet timeoutMs).
Qed.

Lemma mutexMove_settle t k o s s1 :
  Inv s -> tasks s1 = tasks s -> mutex s1 = mutex s -> mutexMove s (settle t k o s1).
Proof.
  intros HI Hts Hmx. pose proof (settle_mutex t k o s s1 HI Hts Hmx) as Hm.
  destruct (usesMutex (call k)); [by right|by left].
Qed.

Lemma mutexMove_listener t received s s1 :
  Inv s -> tasks s1 = tasks s -> mutex s1 = mutex s ->
  mutexMove s (listener t received s1).
Proof.
  intros HI Hts Hmx. unfold listener.
  destruct (tasks s1 !! t) as [k|]; [|by left].
  destruct (call k); try (by left).
  destruct (isValidResponse packet received); [|by left].
  unfold settlePromise. destruct (phase k); try (by left).
  by apply mutexMove_settle.
Qed.

Lemma mutexMove_dispatch received s s1 :
  Inv s -> tasks s1 = tasks s -> mutex s1 = mutex s ->
  packetListeners s1 = packetListeners s ->
  mutexMove s (dispatchPacketReceived received s1).
Proof.
  intros HI Hts Hmx Hls. unfold dispatchPacketReceived. rewrite Hls.
  destruct (listeners_at_most_one s HI) as [->|[t ->]]; cbn [fold_left].
  - by left.
  - by apply mutexMove_listener.
Qed.

Lemma mutexMove_resume t k r s s' :
  Inv s -> tasks s !! t = Some k -> resume t k r s = Some s' -> mutexMove s s'.
Proof.
  intros HI Hk. unfold resume.
  destruct (phase k) eqn:Hph; destruct r; try done; intros [= <-];
    try (by apply mutexMove_settle).
  - unfold sendCheck. destruct (channel s); [by left|by apply mutexMove_settle].
  - unfold sendWrite. destruct (channel s); [by left|by apply mutexMove_settle].
  - unfold sendDone. destruct (call k); [| |by left].
    + destruct (oneWay packet); [by apply mutexMove_settle|by left].
    + by apply mutexMove_settle.
  - unfold connectDevice. destruct (gatt d); [by left|by apply mutexMove_settle].
  - by left.
  - unfold connectSelect. destruct (findSuitableBluetoothCharacteristic g);
      [by left|by apply mutexMove_settle].
  - by left.
Qed.

Lemma acquire_queue c s :
  if locked (mutex s)
  then queue (mutex (acquire (length (tasks s)) (spawn c Queued s)))
         = queue (mutex s) ++ [length (tasks s)] /\
       phaseAt (acquire (length (tasks s)) (spawn c Queued s)) (length (tasks s))
         = Some Queued
  else queue (mutex (acquire (length (tasks s)) (spawn c Queued s))) = queue (mutex s).
Proof.
  unfold acquire. change (mutex (spawn ?c ?ph ?x)) with (mutex x).
  destruct (locked (mutex s)); [|done]. split; [done|].
  unfold phaseAt. change (tasks (withMutex ?m ?x)) with (tasks x).
  by rewrite (lookup_setPhase_eq _ _ _ _ (lookup_spawn_new _ _ _)).
Qed.

(** A turn leaves the queue as it is, or appends the new call when the
    mutex is taken, or gives the mutex to the head of the queue. *)
Lemma step_queue a s s' :
  Inv s -> step a s = Some s' ->
  queue (mutex s') = queue (mutex s) \/
  (locked (mutex s) = true /\ (exists c, a = Invoke c /\ usesMutex c = true) /\
   queue (mutex s') = queue (mutex s) ++ [length (tasks s)] /\
   phaseAt s' (length (tasks s)) = Some Queued) \/
  (exists h, queue (mutex s) = h :: queue (mutex s') /\ phaseAt s' h = Some Acquired).
Proof.
  intros HI Hstep.
  assert (Hmove : mutexMove s s' ->
    queue (mutex s') = queue (mutex s) \/
    (exists h, queue (mutex s) = h :: queue (mutex s') /\ phaseAt s' h = Some Acquired)).
  { intros [->|Hh]; [by left|]. unfold handedOver in Hh.
    destruct (queue (mutex s)) as [|h q].
    - left. by rewrite Hh.
    - right. exists h. destruct Hh as [-> Hph]. done. }
  destruct a; simpl in Hstep.
  - injection Hstep as <-. unfold invoke in *.
    destruct c as [packet timeoutMs|bytes [|]|].
    + pose proof (acquire_queue (SendPacketWaitResponse packet timeoutMs) s) as Ha.
      destruct (locked (mutex s)); [|by left].
      right. left. split_and!; [done|by eexists|apply Ha..].
    + left. unfold sendCheck. change (channel (spawn ?c ?ph ?x)) with (channel x).
      destruct (channel s); [done|]. unfold settle. done.
    + pose proof (acquire_queue (SendRaw bytes false) s) as Ha.
      destruct (locked (mutex s)); [|by left].
      right. left. split_and!; [done|by eexists|apply Ha..].
    + left. unfold connectBegin, disconnect. simpl. by destruct (gattServer s).
  - injection Hstep as <-. left. unfold disconnect. simpl. by destruct (gattServer s).
  - destruct (tasks s !! t) as [k|] eqn:Hk; [|done].
    destruct (Hmove (mutexMove_resume _ _ _ _ _ HI Hk Hstep)); auto.
  - case_decide; [|done]. injection Hstep as <-. left.
    pose proof (dispatchGattServerDisconnected_frame d (disconnectListeners s) s)
      as (Ht & Hm & _).
    by rewrite Hm.
  - case_decide; [|done]. injection Hstep as <-.
    unfold onCharacteristicValueChanged in *.
    destruct (fromBytes bytes) as [p|]; [|by left].
    pose proof (mutexMove_dispatch p s (emit [Dispatch (RawPacketReceivedEvent bytes)] s)
                  HI eq_refl eq_refl eq_refl) as Hm.
    destruct (inResponseCommandId (command p)); destruct (Hmove Hm); auto.
  - destruct (deadlineOf t (timers s)); [|done].
    destruct (_ <=? _)%Z; [|done]. injection Hstep as <-.
    assert (mutexMove s (onTimeout t (withTimers (clearTimeout t (timers s)) s))) as Hm.
    { unfold onTimeout. change (tasks (withTimers ?l ?x)) with (tasks x).
      destruct (tasks s !! t) as [k|]; [|by left].
      destruct (call k); try (by left).
      unfold settlePromise. destruct (phase k); try (by left).
      by apply mutexMove_settle. }
    destruct (Hmove Hm); auto.
  - destruct (_ <=? _)%Z; [|done]. injection Hstep as <-. by left.
  - injection Hstep as <-. by left.
Qed.

End CriticalSection.

(** * The claims *)

Section Claims.
Context `{Collaborators}.

(** C1 (amended).  Either disconnect, the caller's [disconnect()] or the
    transport's "gattserverdisconnected", clears [gattServer], [channel]
    and [info], and [isConnected()] is false afterwards.  It does not
    settle a pending [sendPacketWaitResponse]: the request stays pending,
    with its listener, its timer and the mutex as they were. *)
Theorem disconnect_clears_session_keeps_pending :
  forall (s s' : Client) (d : BluetoothDevice) (a : Action),
    a = InvokeDisconnect \/ a = GattServerDisconnected d ->
    step a s = Some s' ->
    gattServer s' = None /\ channel s' = None /\ info s' = emptyInfo /\
    isConnected s' = false /\
    packetListeners s' = packetListeners s /\ timers s' = timers s /\
    mutex s' = mutex s /\
    (forall t packet timeoutMs,
       pendingRequest s t packet timeoutMs -> pendingRequest s' t packet timeoutMs).
Proof.
  intros s s' d a [->| ->]; simpl.
  - intros [= <-]. unfold disconnect, pendingRequest. simpl.
    by destruct (gattServer s).
  - case_decide as Hd; [|done]. intros [= <-].
    pose proof (dispatchGattServerDisconnected_session d _ s Hd) as (Hg & Hc & Hi).
    pose proof (dispatchGattServerDisconnected_frame d (disconnectListeners s) s)
      as (Ht & Hm & Hl & Htm & _).
    split_and!; try done.
    + unfold isConnected. by rewrite Hg.
    + intros t packet timeoutMs. unfold pendingRequest. by rewrite Ht.
Qed.

(** C6.  When the negotiation of [connect()] throws, the failure is
    logged and nothing else: the call returns a ConnectionInfo, after
    dispatching the connect event with it; its result is the negotiated
    [connectResult] when there is one and [ConnectResult.FirmwareErrors]
    otherwise. *)
Theorem connect_swallows_negotiation_failure :
  forall (s : Client) (t : nat) (d : BluetoothDevice) (e : Error),
    tasks s !! t = Some {| call := Connect; phase := Negotiating d |} ->
    exists s' r,
      step (Resume t (Rejected e)) s = Some s' /\
      tasks s' !! t = Some {| call := Connect; phase := Settled (ReturnedInfo r) |} /\
      deviceName r = name d /\
      result r = match connectResult (info s) with
                 | Some negotiated => negotiated
                 | None => ConnectResult_FirmwareErrors
                 end /\
      trace s' = trace s ++ [ConsoleError "Unable to fetch printer info.";
                             ConsoleErrorObject e; Dispatch (ConnectEvent r)] /\
      gattServer s' = gattServer s /\ channel s' = channel s.
Proof.
  intros s t d e Hk. simpl. rewrite Hk. simpl.
  eexists. eexists. split; [done|].
  unfold connectFinish, settle. cbn [call usesMutex].
  split; [apply (lookup_setPhase_eq t _ _ _ Hk)|].
  split; [done|]. split; [simpl; by destruct (connectResult (info s))|].
  split; [|done]. simpl. by rewrite <- app_assoc.
Qed.


(** C10.  [isConnected()] is true exactly when [gattServer] and
    [channel] are set.  [connect()] sets them when [startNotifications]
    has resolved, before the negotiation and without dispatching
    anything; from then on [isConnected()] stays true under every action
    that is not a disconnect, and the connect event is dispatched when
    the negotiation has ended, in a turn that leaves [isConnected()] as it
    is.  No operation reads the phase of [connect()]: with the call
    negotiating or in any other phase, returned included, [isConnected()]
    is the same and every action other than the continuation of that call
    does the same. *)
Theorem isConnected_during_negotiation :
  (forall s : Client,
     isConnected s = true <-> is_Some (gattServer s) /\ is_Some (channel s)) /\
  (forall (s : Client) (t : nat) d g c,
     tasks s !! t = Some {| call := Connect; phase := StartingNotifications d g c |} ->
     exists s',
       step (Resume t Fulfilled) s = Some s' /\
       gattServer s' = Some g /\ channel s' = Some c /\ isConnected s' = true /\
       tasks s' !! t = Some {| call := Connect; phase := Negotiating d |} /\
       trace s' = trace s) /\
  (forall (a : Action) (s s' : Client),
     step a s = Some s' -> disconnects a = false ->
     isConnected s = true -> isConnected s' = true) /\
  (forall (s : Client) (t : nat) d (r : Settlement),
     tasks s !! t = Some {| call := Connect; phase := Negotiating d |} ->
     r = Fulfilled \/ (exists e, r = Rejected e) ->
     exists s' i,
       step (Resume t r) s = Some s' /\
       last (trace s') = Some (Dispatch (ConnectEvent i)) /\
       tasks s' !! t = Some {| call := Connect; phase := Settled (ReturnedInfo i) |} /\
       isConnected s' = isConnected s) /\
  (forall (s s' : Client) (t : nat) d (a : Action) (ph : Phase),
     reachable s ->
     tasks s !! t = Some {| call := Connect; phase := Negotiating d |} ->
     (forall r, a <> Resume t r) ->
     step a s = Some s' ->
     isConnected (setPhase t ph s) = isConnected s /\
     step a (setPhase t ph s) = Some (setPhase t ph s')).
Proof.
  split_and!.
  - apply isConnected_spec.
  - intros s t d g c Hk. simpl. rewrite Hk. simpl. eexists. split; [done|].
    unfold connectAssign. split_and!; try done.
    apply (lookup_setPhase_eq t _ _ _ Hk).
  - intros a s s' Hstep Hd Hcon.
    destruct (step_session _ _ _ Hstep) as [[Hg Hc]|[(Hd' & _)|(_ & Hg & Hc)]].
    + unfold isConnected in *. by rewrite Hg, Hc.
    + congruence.
    + by apply isConnected_spec.
  - intros s t d r Hk [->|[e ->]]; simpl; rewrite Hk; simpl.
    + eexists. eexists. split; [done|]. unfold connectFinish, settle.
      cbn [call usesMutex].
      split_and!; [simpl; by rewrite last_snoc|apply (lookup_setPhase_eq t _ _ _ Hk)|done].
    + eexists. eexists. split; [done|]. unfold connectFinish, settle.
      cbn [call usesMutex].
      split_and!; [simpl; by rewrite last_snoc|apply (lookup_setPhase_eq t _ _ _ Hk)|done].
  - intros s s' t d a ph Hr Hk Hres Hstep. split; [done|].
    apply step_blind; [|done..]. split; [by eauto|].
    intros Hin. destruct (inv_queue _ (reachable_Inv _ Hr) _ Hin) as (k & Hk' & Hph).
    rewrite Hk in Hk'. injection Hk' as <-. done.
Qed.

(** C3.  A call of [sendPacketWaitResponse] with a one-way packet never
    has a "packetreceived" listener or a timer, in any state the client
    reaches; and when its write completes it returns the packet
    [new NiimbotPacket(ResponseCommandId.Invalid, [])] in that same turn,
    which dispatches "rawpacketsent", leaves listeners and timers as they
    are, and hands the mutex on. *)
Theorem oneWay_returns_after_write :
  forall (s : Client) (t : nat) (k : Task) packet timeoutMs,
    reachable s ->
    tasks s !! t = Some k ->
    call k = SendPacketWaitResponse packet timeoutMs ->
    oneWay packet = true ->
    (t ∉ packetListeners s) /\ deadlineOf t (timers s) = None /\ phase k <> Awaiting /\
    (phase k = Writing ->
     exists s',
       step (Resume t Fulfilled) s = Some s' /\
       tasks s' !! t = Some {| call := SendPacketWaitResponse packet timeoutMs;
         phase := Settled (ReturnedPacket (newNiimbotPacket ResponseCommandId_Invalid [])) |} /\
       packetListeners s' = packetListeners s /\ timers s' = timers s /\
       trace s' = trace s ++ [Dispatch (RawPacketSentEvent (toBytes packet))] /\
       (queue (mutex s) = [] -> mutex s' = {| locked := false; queue := [] |}) /\
       (forall h q, queue (mutex s) = h :: q ->
          mutex s' = {| locked := true; queue := q |} /\
          phaseAt s' h = Some Acquired /\
          is_Some (step (Resume h Fulfilled) s'))).
Proof.
  intros s t k packet timeoutMs Hr Hk Hc Hone.
  pose proof (reachable_Inv _ Hr) as HI.
  assert (HnA : phase k <> Awaiting).
  { intros HA. pose proof (inv_phase _ HI _ _ Hk) as Hok.
    rewrite HA, Hc in Hok. simpl in Hok. by rewrite Hone in Hok. }
  split_and!.
  - intros Hin. destruct (inv_listeners _ HI _ Hin) as (k' & Hk' & Hph'). congruence.
  - destruct (deadlineOf t (timers s)) as [d|] eqn:Hd; [|done].
    apply deadlineOf_Some in Hd.
    destruct (inv_timers _ HI _ _ Hd) as (k' & Hk' & Hph'). congruence.
  - done.
  - intros Hw. rewrite (step_resume _ _ _ _ Hk). unfold resume. rewrite Hw.
    eexists. split; [done|]. unfold sendDone. rewrite Hc, Hone.
    set (s1 := emit _ s).
    pose proof (settle_frame t k
      (ReturnedPacket (newNiimbotPacket ResponseCommandId_Invalid [])) s1)
      as (Htr & _ & _ & _ & Hls & Htm & _).
    pose proof (settle_mutex t k
      (ReturnedPacket (newNiimbotPacket ResponseCommandId_Invalid [])) s s1 HI
      eq_refl eq_refl) as Hm.
    rewrite Hc in Hm. cbn [usesMutex] in Hm. apply handedOver_next in Hm as [Hm1 Hm2].
    split_and!; [|done..].
    rewrite (settle_phase t k _ s s1 HI Hk); [|congruence|done..].
    unfold withPhase. by rewrite Hc.
Qed.

(** C4.  While a two-way request is pending, an inbound packet resolves
    it when [validResponseIds] is empty, whatever its command; when
    [validResponseIds] is not empty it resolves it if and only if its
    command is a member, and a packet that is not leaves the request, the
    listeners, the timers and the mutex unchanged. *)
Theorem response_matching :
  forall (s : Client) (t : nat) packet timeoutMs c bytes received,
    reachable s ->
    pendingRequest s t packet timeoutMs ->
    c ∈ valueListeners s ->
    fromBytes bytes = Some received ->
    exists s',
      step (CharacteristicValueChanged c bytes) s = Some s' /\
      (validResponseIds packet = [] ->
       phaseAt s' t = Some (Settled (ReturnedPacket received))) /\
      (validResponseIds packet <> [] ->
       (phaseAt s' t = Some (Settled (ReturnedPacket received))
        <-> command received ∈ validResponseIds packet)) /\
      (validResponseIds packet <> [] ->
       command received ∉ validResponseIds packet ->
       pendingRequest s' t packet timeoutMs /\
       packetListeners s' = packetListeners s /\ timers s' = timers s /\
       mutex s' = mutex s).
Proof.
  intros s t packet timeoutMs c bytes received Hr Hp Hc Hdec.
  pose proof (reachable_Inv _ Hr) as HI.
  cbn [step]. rewrite decide_True by done. eexists. split; [done|].
  pose proof (notification_pending s t packet timeoutMs bytes received HI Hp Hdec) as Hn.
  cbv zeta in Hn.
  pose proof (isValidResponse_spec packet received) as Hv.
  destruct (isValidResponse packet received).
  - destruct Hn as (Hk & _).
    assert (Hph : phaseAt (onCharacteristicValueChanged bytes s) t
                  = Some (Settled (ReturnedPacket received)))
      by (by rewrite (phaseAt_Some _ _ _ Hk)).
    split_and!.
    + done.
    + intros Hne. split; [|done]. intros _.
      destruct (proj1 Hv eq_refl) as [?|?]; done.
    + intros Hne Hnin. destruct (proj1 Hv eq_refl) as [?|?]; done.
  - destruct Hn as (Hts & Hls & Htm & Hm).
    assert (Hph : phaseAt (onCharacteristicValueChanged bytes s) t = Some Awaiting).
    { unfold phaseAt. rewrite Hts. unfold pendingRequest in Hp. by rewrite Hp. }
    split_and!.
    + intros Hnil. assert (false = true) by (apply Hv; by left). done.
    + intros Hne. rewrite Hph. split; [done|].
      intros Hin. assert (false = true) by (apply Hv; by right). done.
    + intros _ _. unfold pendingRequest. by rewrite Hts.
Qed.

(** C5.  The timer of a two-way request is started with [timeoutMs], or
    with 1000 ms when none is given, in the turn in which the write
    completed.  [setTimeout] takes the delay as a 32-bit integer: a
    timeout from 0 to 2^31 - 1 ms, the default among them, is waited as it
    is, the timer of a timeout from 2^31 to 2^32 - 1 ms is due at once,
    and no timer waits longer than its timeout.  A timer cannot fire
    before its deadline.  When it fires and the request is still pending,
    the call throws the timeout error, whose message contains [bufToHex]
    of [validResponseIds]; the listener and the timer are gone, and the
    mutex is handed on: it is free when nobody waits, and otherwise the
    oldest waiter holds it and can run. *)
Theorem timeout_fails_request_and_releases :
  (forall ms : Z, timeoutOf (Some ms) = ms) /\ timeoutOf None = 1000%Z /\
  (forall ms : Z, (0 <= ms < 2 ^ 31)%Z -> setTimeoutDelay ms = ms) /\
  (forall ms : Z, (2 ^ 31 <= ms < 2 ^ 32)%Z -> setTimeoutDelay ms = 0%Z) /\
  (forall ms : Z, (0 <= ms)%Z -> (0 <= setTimeoutDelay ms <= ms)%Z) /\
  (forall (s : Client) (t : nat) packet timeoutMs,
     tasks s !! t = Some {| call := SendPacketWaitResponse packet timeoutMs;
                            phase := Writing |} ->
     oneWay packet = false ->
     exists s',
       step (Resume t Fulfilled) s = Some s' /\
       pendingRequest s' t packet timeoutMs /\
       timers s' = timers s ++ [(t, (clock s + setTimeoutDelay (timeoutOf timeoutMs))%Z)] /\
       packetListeners s' = packetListeners s ++ [t]) /\
  (forall (s : Client) (t : nat) packet timeoutMs,
     reachable s ->
     pendingRequest s t packet timeoutMs ->
     exists deadline,
       deadlineOf t (timers s) = Some deadline /\
       ((clock s < deadline)%Z -> step (TimerFired t) s = None) /\
       ((deadline <= clock s)%Z ->
        exists s',
          step (TimerFired t) s = Some s' /\
          tasks s' !! t = Some {| call := SendPacketWaitResponse packet timeoutMs;
            phase := Settled (Thrown (JsError
              ("Timeout waiting response (waited for "
               ++ bufToHex (validResponseIds packet) ", " ++ ")"))) |} /\
          (t ∉ packetListeners s') /\ deadlineOf t (timers s') = None /\
          (queue (mutex s) = [] -> mutex s' = {| locked := false; queue := [] |}) /\
          (forall h q, queue (mutex s) = h :: q ->
             mutex s' = {| locked := true; queue := q |} /\
             phaseAt s' h = Some Acquired /\
             is_Some (step (Resume h Fulfilled) s')))).
Proof.
  split_and!; [done|done|apply setTimeoutDelay_small|apply setTimeoutDelay_wraps
              |apply setTimeoutDelay_le| |].
  - intros s t packet timeoutMs Hk Hone.
    rewrite (step_resume _ _ _ _ Hk). cbn [resume phase].
    eexists. split; [done|]. unfold sendDone. cbn [call]. rewrite Hone. cbv zeta.
    split_and!; [|done..]. unfold pendingRequest.
    apply (lookup_setPhase_eq t _ _ _ Hk).
  - intros s t packet timeoutMs Hr Hp.
    pose proof (reachable_Inv _ Hr) as HI.
    destruct (inv_pending _ HI _ _ Hp eq_refl) as [_ [d Hd]].
    destruct (deadlineOf_elem _ _ _ Hd) as [deadline Hdl].
    exists deadline. split; [done|]. cbn [step]. rewrite Hdl. split.
    + intros Hlt. by rewrite (proj2 (Z.leb_gt _ _) Hlt).
    + intros Hle. rewrite (proj2 (Z.leb_le _ _) Hle).
      rewrite (onTimeout_pending (withTimers (clearTimeout t (timers s)) s)
                 t packet timeoutMs Hp).
      set (k := {| call := SendPacketWaitResponse packet timeoutMs; phase := Awaiting |}).
      set (o := Thrown (JsError (timeoutMessage packet))).
      set (s1 := withPacketListeners _ _).
      eexists. split; [done|].
      pose proof (settle_frame t k o s1) as (_ & _ & _ & _ & Hls & Htm & _).
      pose proof (settle_mutex t k o s s1 HI eq_refl eq_refl) as Hm.
      cbn [call usesMutex k] in Hm. apply handedOver_next in Hm as [Hm1 Hm2].
      split_and!; [|rewrite Hls|rewrite Htm|done|done].
      * by apply (settle_phase t k o s s1 HI Hp).
      * subst s1. simpl. intros [Hne _]%removeEventListener_elem. done.
      * subst s1. simpl. apply deadlineOf_clearTimeout.
Qed.


(** C9.  [sendRaw] runs the same [send] for either value of [force]:
    "Channel is closed" is thrown when the channel is unset, the sleep of
    [packetIntervalMs] precedes the write, the bytes are written without
    response, and "rawpacketsent" is dispatched after the write.  With
    [force] the first turn of [send] runs inside the call and the mutex is
    never touched; without it the call goes through the mutex first, and
    each of its turns is the forced turn, followed by the release of the
    mutex when the call ends. *)
Theorem sendRaw_force_skips_only_the_mutex :
  forall (bytes : list byte),
    (forall s : Client,
       invoke (SendRaw bytes true) s
       = sendCheck (length (tasks s)) {| call := SendRaw bytes true; phase := Acquired |}
                   (spawn (SendRaw bytes true) Acquired s)) /\
    (forall s : Client,
       invoke (SendRaw bytes false) s
       = acquire (length (tasks s)) (spawn (SendRaw bytes false) Queued s)) /\
    (forall (force : bool) (s : Client) (t : nat),
       let k := {| call := SendRaw bytes force; phase := Acquired |} in
       tasks s !! t = Some k -> (force = false -> reachable s) ->
       step (Resume t Fulfilled) s = Some (sendCheck t k s) /\
       match channel s with
       | None =>
           phaseAt (sendCheck t k s) t
             = Some (Settled (Thrown (JsError "Channel is closed"))) /\
           trace (sendCheck t k s) = trace s
       | Some _ =>
           phaseAt (sendCheck t k s) t = Some Sleeping /\
           trace (sendCheck t k s) = trace s ++ [Sleep (packetIntervalMs s)]
       end) /\
    (forall (force : bool) (s : Client) (t : nat),
       let k := {| call := SendRaw bytes force; phase := Sleeping |} in
       tasks s !! t = Some k -> (force = false -> reachable s) ->
       step (Resume t Fulfilled) s = Some (sendWrite t k s) /\
       match channel s with
       | None =>
           phaseAt (sendWrite t k s) t = Some (Settled (Thrown JsTypeError)) /\
           trace (sendWrite t k s) = trace s
       | Some c =>
           phaseAt (sendWrite t k s) t = Some Writing /\
           trace (sendWrite t k s) = trace s ++ [WriteValueWithoutResponse c bytes]
       end) /\
    (forall (force : bool) (s : Client) (t : nat),
       let k := {| call := SendRaw bytes force; phase := Writing |} in
       tasks s !! t = Some k -> (force = false -> reachable s) ->
       step (Resume t Fulfilled) s = Some (sendDone t k s) /\
       phaseAt (sendDone t k s) t = Some (Settled ReturnedVoid) /\
       trace (sendDone t k s) = trace s ++ [Dispatch (RawPacketSentEvent bytes)]) /\
    (forall (s sf : Client) (t : nat) (ph : Phase) (r : Settlement),
       resume t {| call := SendRaw bytes true; phase := ph |} r s = Some sf ->
       mutex sf = mutex s /\
       exists su,
         resume t {| call := SendRaw bytes false; phase := ph |} r s = Some su /\
         (su = sf \/ su = release sf)) /\
    (forall (s su : Client) (t : nat) (ph : Phase) (r : Settlement),
       resume t {| call := SendRaw bytes false; phase := ph |} r s = Some su ->
       exists sf, resume t {| call := SendRaw bytes true; phase := ph |} r s = Some sf).
Proof.
  intros bytes.
  assert (Hsettle : forall force s x t ph o,
    tasks s !! t = Some {| call := SendRaw bytes force; phase := ph |} ->
    ph <> Queued -> (force = false -> reachable s) ->
    tasks x = tasks s -> mutex x = mutex s ->
    phaseAt (settle t {| call := SendRaw bytes force; phase := ph |} o x) t
      = Some (Settled o)).
  { intros force s x t ph o Hk HQ Hr Hts Hmx. destruct force.
    - unfold settle. cbn [call usesMutex negb].
      apply (phaseAt_setPhase x t {| call := SendRaw bytes true; phase := ph |}).
      by rewrite Hts.
    - unfold phaseAt.
      by rewrite (settle_phase t _ o s x (reachable_Inv _ (Hr eq_refl)) Hk). }
  split_and!.
  - done.
  - done.
  - intros force s t k Hk Hr. split; [by rewrite (step_resume _ _ _ _ Hk)|].
    unfold sendCheck. destruct (channel s) eqn:Hc.
    + split; [|done]. by apply (phaseAt_setPhase _ t k).
    + split; [by apply (Hsettle force s s)|apply settle_trace].
  - intros force s t k Hk Hr. split; [by rewrite (step_resume _ _ _ _ Hk)|].
    unfold sendWrite. destruct (channel s) eqn:Hc.
    + split; [|done]. by apply (phaseAt_setPhase _ t k).
    + split; [by apply (Hsettle force s s)|apply settle_trace].
  - intros force s t k Hk Hr. split; [by rewrite (step_resume _ _ _ _ Hk)|].
    unfold sendDone. cbn [call k].
    split; [by apply (Hsettle force s)|]. by rewrite settle_trace.
  - intros s sf t ph r. unfold resume. cbn [phase].
    destruct ph, r; try done; intros [= <-];
      try (split; [done|]; eexists; split; [done|]; by right).
    + unfold sendCheck. destruct (channel s).
      * split; [done|]. eexists. split; [done|]. by left.
      * split; [done|]. eexists. split; [done|]. by right.
    + unfold sendWrite. destruct (channel s).
      * split; [done|]. eexists. split; [done|]. by left.
      * split; [done|]. eexists. split; [done|]. by right.
    + unfold connectDevice. destruct (gatt d).
      * split; [done|]. eexists. split; [done|]. by left.
      * split; [done|]. eexists. split; [done|]. by right.
    + split; [done|]. eexists. split; [done|]. by left.
    + unfold connectSelect. destruct (findSuitableBluetoothCharacteristic g).
      * split; [done|]. eexists. split; [done|]. by left.
      * split; [done|]. eexists. split; [done|]. by right.
    + split; [done|]. eexists. split; [done|]. by left.
  - intros s su t ph r. unfold resume. cbn [phase].
    destruct ph, r; try done; intros _; by eexists.
Qed.

(** C2.  In every state the client reaches, at most one call of
    [sendPacketWaitResponse] or of [sendRaw] without [force] is in its
    critical section, and the mutex is locked while one is.  Both go
    through the one mutex: a new call enters its section when the mutex is
    free and otherwise joins the queue at the tail; a turn admits at most
    one waiter, the head of the queue.  A call leaves its section only by
    returning or throwing: the completed write of a two-way request leaves
    it in the section, awaiting, with the mutex locked. *)
Theorem exchanges_are_mutually_exclusive :
  forall s : Client,
    reachable s ->
    (forall i j ki kj,
       tasks s !! i = Some ki -> tasks s !! j = Some kj ->
       holdsMutex ki = true -> holdsMutex kj = true -> i = j) /\
    (forall i k, tasks s !! i = Some k -> holdsMutex k = true ->
       locked (mutex s) = true) /\
    (forall packet timeoutMs bytes,
       invoke (SendPacketWaitResponse packet timeoutMs) s
         = acquire (length (tasks s))
                   (spawn (SendPacketWaitResponse packet timeoutMs) Queued s) /\
       invoke (SendRaw bytes false) s
         = acquire (length (tasks s)) (spawn (SendRaw bytes false) Queued s)) /\
    (forall c, usesMutex c = true ->
       if locked (mutex s)
       then phaseAt (invoke c s) (length (tasks s)) = Some Queued /\
            mutex (invoke c s)
              = {| locked := true; queue := queue (mutex s) ++ [length (tasks s)] |}
       else phaseAt (invoke c s) (length (tasks s)) = Some Acquired /\
            mutex (invoke c s) = {| locked := true; queue := [] |}) /\
    (forall a s', step a s = Some s' ->
       queue (mutex s') = queue (mutex s) \/
       (locked (mutex s) = true /\ (exists c, a = Invoke c /\ usesMutex c = true) /\
        queue (mutex s') = queue (mutex s) ++ [length (tasks s)] /\
        phaseAt s' (length (tasks s)) = Some Queued) \/
       (exists h, queue (mutex s) = h :: queue (mutex s') /\
                  phaseAt s' h = Some Acquired)) /\
    (forall a s' i k,
       step a s = Some s' -> tasks s !! i = Some k -> holdsMutex k = true ->
       exists k', tasks s' !! i = Some k' /\ call k' = call k /\
         (holdsMutex k' = true \/ exists o, phase k' = Settled o)) /\
    (forall t packet timeoutMs,
       tasks s !! t = Some {| call := SendPacketWaitResponse packet timeoutMs;
                              phase := Writing |} ->
       oneWay packet = false ->
       exists s',
         step (Resume t Fulfilled) s = Some s' /\
         phaseAt s' t = Some Awaiting /\
         mutex s' = mutex s /\ locked (mutex s') = true).
Proof.
  intros s Hr. pose proof (reachable_Inv _ Hr) as HI.
  assert (Hlocked : forall i k, tasks s !! i = Some k -> holdsMutex k = true ->
            locked (mutex s) = true).
  { intros i k Hk Hh. destruct (locked (mutex s)) eqn:Hlk; [done|].
    destruct (inv_unlocked _ HI Hlk) as [_ Hnone]. by rewrite (Hnone _ _ Hk) in Hh. }
  split_and!.
  - apply (inv_exclusive _ HI).
  - done.
  - done.
  - intros c Hu.
    assert (invoke c s = acquire (length (tasks s)) (spawn c Queued s)) as ->
      by (by destruct c as [| ? []|]).
    unfold acquire, phaseAt. change (mutex (spawn ?c ?ph ?x)) with (mutex x).
    destruct (locked (mutex s)) eqn:Hlk;
      change (tasks (withMutex ?m ?x)) with (tasks x);
      rewrite (lookup_setPhase_eq _ _ _ _ (lookup_spawn_new _ _ _)).
    + done.
    + destruct (inv_unlocked _ HI Hlk) as [-> _]. done.
  - intros a s'. by apply step_queue.
  - intros a s' i k Hstep Hk Hh.
    destruct (step_stable _ _ _ Hstep i k Hk) as (k' & Hk' & Hc' & Hu' & Hkeep').
    { split; [by apply holdsMutex_usesMutex|left; by apply holdsMutex_inSection]. }
    exists k'. split_and!; [done..|].
    destruct Hkeep' as [Hsec|Hset]; [left|by right].
    unfold holdsMutex. by rewrite Hu', Hsec.
  - intros t packet timeoutMs Hk Hone.
    rewrite (step_resume _ _ _ _ Hk). cbn [resume phase].
    eexists. split; [done|]. unfold sendDone. cbn [call]. rewrite Hone.
    split_and!.
    + by apply (phaseAt_setPhase _ t _ _ Hk).
    + done.
    + by apply (Hlocked _ _ Hk).
Qed.

End Claims.

(** * The claims on the printer of [Demo] *)

Section Witnesses.
#[local] Existing Instance Demo.collaborators.

(** C1: with the answer to [query] outstanding and 1000 ms left on its
    timer, neither disconnect fails the request: it is still awaiting its
    answer, with its listener and its timer. *)
Lemma disconnect_leaves_request_pending :
  pendingRequest Demo.pending 1 Demo.query None /\
  clock Demo.pending = 0%Z /\ timers Demo.pending = [(1, 1000%Z)] /\
  step InvokeDisconnect Demo.pending = Some (disconnect Demo.pending) /\
  step (GattServerDisconnected Demo.printer) Demo.pending
    = Some (disconnectListener Demo.printer Demo.pending) /\
  phaseAt (disconnect Demo.pending) 1 = Some Awaiting /\
  phaseAt (disconnectListener Demo.printer Demo.pending) 1 = Some Awaiting /\
  ~ (exists e, phaseAt (disconnect Demo.pending) 1 = Some (Settled (Thrown e))) /\
  ~ (exists e, phaseAt (disconnectListener Demo.printer Demo.pending) 1
               = Some (Settled (Thrown e))).
Proof.
  split_and!; try (vm_compute; reflexivity).
  - intros [e He]. vm_compute in He. discriminate.
  - intros [e He]. vm_compute in He. discriminate.
Qed.

Lemma disconnect_clears_session_keeps_pending_witness :
  isConnected (disconnect Demo.pending) = false /\
  pendingRequest (disconnect Demo.pending) 1 Demo.query None.
Proof.
  destruct (disconnect_clears_session_keeps_pending Demo.pending
              (disconnect Demo.pending) Demo.printer InvokeDisconnect)
    as (_ & _ & _ & Hcon & _ & _ & _ & Hp).
  - left. reflexivity.
  - reflexivity.
  - split; [exact Hcon|]. apply Hp. vm_compute. reflexivity.
Defined.

Lemma connect_swallows_negotiation_failure_witness :
  exists s' r,
    step (Resume 0 (Rejected (JsError "not supported"))) Demo.negotiating = Some s' /\
    tasks s' !! 0 = Some {| call := Connect; phase := Settled (ReturnedInfo r) |} /\
    result r = 90%Z.
Proof.
  destruct (connect_swallows_negotiation_failure Demo.negotiating 0 Demo.printer
              (JsError "not supported"))
    as (s' & r & Hstep & Hk & _ & Hr & _).
  - vm_compute. reflexivity.
  - exists s', r. split; [exact Hstep|]. split; [exact Hk|]. exact Hr.
Defined.



Lemma after_reachable acts s :
  run (Demo.connectActions ++ acts) (newClient 10) = Some s -> reachable s.
Proof. intros Hrun. exists 10%Z, (Demo.connectActions ++ acts). exact Hrun. Defined.

Lemma pending_reachable : reachable Demo.pending.
Proof. apply (after_reachable (Demo.exchange Demo.query None 3)). vm_compute. reflexivity. Defined.

Lemma exchanges_are_mutually_exclusive_witness :
  locked (mutex Demo.pending) = true /\
  phaseAt (invoke (SendRaw [x01] false) Demo.pending) 2 = Some Queued.
Proof.
  destruct (exchanges_are_mutually_exclusive Demo.pending pending_reachable)
    as (_ & Hlocked & _ & Hinvoke & _).
  split.
  - apply (Hlocked 1 {| call := SendPacketWaitResponse Demo.query None; phase := Awaiting |}).
    + vm_compute. reflexivity.
    + reflexivity.
  - exact (proj1 (Hinvoke (SendRaw [x01] false) eq_refl)).
Defined.

Lemma oneWay_returns_after_write_witness :
  (1 ∉ packetListeners Demo.writingNotice) /\
  exists s',
    step (Resume 1 Fulfilled) Demo.writingNotice = Some s' /\
    tasks s' !! 1 = Some {| call := SendPacketWaitResponse Demo.notice None;
      phase := Settled (ReturnedPacket (newNiimbotPacket ResponseCommandId_Invalid [])) |} /\
    packetListeners s' = [] /\ timers s' = [].
Proof.
  destruct (oneWay_returns_after_write Demo.writingNotice 1
              {| call := SendPacketWaitResponse Demo.notice None; phase := Writing |}
              Demo.notice None)
    as (Hl & _ & _ & Hret).
  - apply (after_reachable (Demo.exchange Demo.notice None 2)). vm_compute. reflexivity.
  - vm_compute. reflexivity.
  - reflexivity.
  - reflexivity.
  - split; [exact Hl|].
    destruct (Hret eq_refl) as (s' & Hstep & Hk & Hls & Htm & _).
    exists s'. split; [exact Hstep|]. split; [exact Hk|].
    split; [exact Hls|exact Htm].
Defined.

Lemma response_matching_witness :
  exists s',
    step (CharacteristicValueChanged Demo.vendorChannel [x05; x07]) Demo.pending = Some s' /\
    phaseAt s' 1 = Some (Settled (ReturnedPacket
      {| command := 5; data := [x07]; oneWay := false; validResponseIds := [] |})).
Proof.
  destruct (response_matching Demo.pending 1 Demo.query None Demo.vendorChannel
              [x05; x07]
              {| command := 5; data := [x07]; oneWay := false; validResponseIds := [] |})
    as (s' & Hstep & _ & Hiff & _).
  - exact pending_reachable.
  - vm_compute. reflexivity.
  - vm_compute. left.
  - reflexivity.
  - exists s'. split; [exact Hstep|]. apply Hiff.
    + discriminate.
    + vm_compute. left.
Defined.

Lemma timeout_fails_request_and_releases_witness :
  (exists s',
     step (TimerFired 1) Demo.expired = Some s' /\
     tasks s' !! 1 = Some {| call := SendPacketWaitResponse Demo.query None;
       phase := Settled (Thrown (JsError "Timeout waiting response (waited for 05)")) |} /\
     mutex s' = {| locked := false; queue := [] |}) /\
  (exists s',
     step (Resume 1 Fulfilled) Demo.writingQuery = Some s' /\
     timers s' = [(1, (clock Demo.writingQuery + 1000)%Z)]) /\
  setTimeoutDelay 2147483648 = 0%Z.
Proof.
  destruct timeout_fails_request_and_releases
    as (_ & Hdefault & Hsmall & Hwraps & _ & Hset & Hfire).
  split_and!.
  - destruct (Hfire Demo.expired 1 Demo.query None) as (deadline & Hd & _ & Hgo).
    + apply (after_reachable (Demo.exchange Demo.query None 3 ++ [Elapse 1000])).
      vm_compute. reflexivity.
    + vm_compute. reflexivity.
    + vm_compute in Hd. injection Hd as <-.
      destruct Hgo as (s' & Hstep & Hk & _ & _ & Hfree & _).
      * vm_compute. discriminate.
      * exists s'. split; [exact Hstep|]. split; [exact Hk|].
        apply Hfree. vm_compute. reflexivity.
  - destruct (Hset Demo.writingQuery 1 Demo.query None) as (s' & Hstep & _ & Htm & _).
    + vm_compute. reflexivity.
    + reflexivity.
    + exists s'. split; [exact Hstep|]. rewrite Htm, Hdefault.
      rewrite Hsmall by (vm_compute; split; [discriminate|reflexivity]). reflexivity.
  - apply Hwraps. vm_compute. split; [discriminate|reflexivity].
Defined.



Lemma sendRaw_force_skips_only_the_mutex_witness :
  phaseAt (sendCheck 1 {| call := SendRaw [x01; x02] false; phase := Acquired |}
                     Demo.rawAcquired) 1 = Some Sleeping /\
  trace (sendCheck 1 {| call := SendRaw [x01; x02] false; phase := Acquired |}
                   Demo.rawAcquired)
    = trace Demo.rawAcquired ++ [Sleep 10].
Proof.
  destruct (sendRaw_force_skips_only_the_mutex [x01; x02]) as (_ & _ & Hcheck & _).
  destruct (Hcheck false Demo.rawAcquired 1) as (_ & Hturn).
  - vm_compute. reflexivity.
  - intros _. apply (after_reachable [Invoke (SendRaw [x01; x02] false)]).
    vm_compute. reflexivity.
  - exact Hturn.
Defined.

Lemma isConnected_during_negotiation_witness :
  exists s',
    step (Resume 0 Fulfilled) Demo.notifying = Some s' /\
    isConnected s' = true /\
    tasks s' !! 0 = Some {| call := Connect; phase := Negotiating Demo.printer |} /\
    trace s' = trace Demo.notifying.
Proof.
  destruct isConnected_during_negotiation as (_ & Hassign & _).
  destruct (Hassign Demo.notifying 0 Demo.printer Demo.printerServer Demo.vendorChannel)
    as (s' & Hstep & _ & _ & Hcon & Hk & Htrace).
  - vm_compute. reflexivity.
  - exists s'. split; [exact Hstep|]. split; [exact Hcon|]. split; [exact Hk|exact Htrace].
Defined.

End Witnesses.

(** * Further properties of the client *)

Section Extras.
Context `{Collaborators}.

(** ** disconnect *)

(** X1.  [disconnect()] called twice: the first call stops the heartbeat
    and disconnects the GATT server when there is one; the second stops
    the heartbeat again and does nothing else, because [gattServer] is
    already unset. *)
Theorem disconnect_twice :
  forall s : Client,
    trace (disconnect s)
      = trace s ++ StopHeartbeat
                   :: match gattServer s with
                      | Some g => [GattDisconnect g]
                      | None => []
                      end /\
    trace (disconnect (disconnect s)) = trace (disconnect s) ++ [StopHeartbeat] /\
    gattServer (disconnect (disconnect s)) = None /\
    channel (disconnect (disconnect s)) = None /\
    info (disconnect (disconnect s)) = emptyInfo /\
    isConnected (disconnect (disconnect s)) = false /\
    tasks (disconnect (disconnect s)) = tasks s /\
    mutex (disconnect (disconnect s)) = mutex s /\
    disconnectListeners (disconnect (disconnect s)) = disconnectListeners s.
Proof.
  intros s. unfold disconnect. cbn [gattServer emit withSession trace].
  destruct (gattServer s); cbn; split_and!; try done; by rewrite <- app_assoc.
Qed.

(** ** Channel selection *)

Lemma firstSuitable_Some cs c :
  firstSuitable cs = Some c -> suitable c = true /\ c ∈ cs.
Proof.
  induction cs as [|c' cs IH]; cbn [firstSuitable]; [done|].
  destruct (notify (properties c') && writeWithoutResponse (properties c')) eqn:Hs.
  - intros [= <-]. split; [done|left].
  - intros Hc. destruct (IH Hc) as [? ?]. split; [done|by right].
Qed.

Lemma firstSuitable_None cs :
  firstSuitable cs = None <-> forall c, c ∈ cs -> suitable c = false.
Proof.
  induction cs as [|c' cs IH]; cbn [firstSuitable].
  - split; [|done]. intros _ c Hc. by apply elem_of_nil in Hc.
  - destruct (notify (properties c') && writeWithoutResponse (properties c')) eqn:Hs.
    + split; [done|]. intros Hall. specialize (Hall c' (proj2 (elem_of_cons _ _ _) (or_introl eq_refl))).
      unfold suitable in Hall. congruence.
    + rewrite IH. split.
      * intros Hall c [->|Hc]%elem_of_cons; [done|by apply Hall].
      * intros Hall c Hc. apply Hall. by right.
Qed.

(** X2.  The selected characteristic supports notify and
    write-without-response and belongs to a primary service whose uuid has
    at least 5 characters; the selection returns undefined exactly when no
    such service has such a characteristic. *)
Theorem findSuitableBluetoothCharacteristic_sound_complete :
  forall g : BluetoothRemoteGATTServer,
    (forall c, findSuitableBluetoothCharacteristic g = Some c ->
       notify (properties c) = true /\ writeWithoutResponse (properties c) = true /\
       exists sv, sv ∈ getPrimaryServices g /\ 5 <= String.length (uuid sv) /\
                  c ∈ getCharacteristics sv) /\
    (findSuitableBluetoothCharacteristic g = None <->
     forall sv c, sv ∈ getPrimaryServices g -> 5 <= String.length (uuid sv) ->
                  c ∈ getCharacteristics sv ->
                  notify (properties c) && writeWithoutResponse (properties c) = false).
Proof.
  intros g. unfold findSuitableBluetoothCharacteristic.
  induction (getPrimaryServices g) as [|sv0 rest [IHs IHn]]; cbn [findInServices].
  - split; [done|]. split; [|done]. intros _ sv c Hsv. by apply elem_of_nil in Hsv.
  - destruct (Nat.ltb_spec (String.length (uuid sv0)) 5) as [Hshort|Hlong].
    + split.
      * intros c Hc. destruct (IHs c Hc) as (Hn & Hw & sv & Hsv & Hlen & Hin).
        split_and!; [done..|]. exists sv. split_and!; [by right|done..].
      * rewrite IHn. split.
        -- intros Hall sv c [->|Hsv]%elem_of_cons Hlen Hin; [lia|by eapply Hall].
        -- intros Hall sv c Hsv. apply Hall. by right.
    + destruct (firstSuitable (getCharacteristics sv0)) as [c0|] eqn:Hf.
      * split.
        -- intros c [= <-]. destruct (firstSuitable_Some _ _ Hf) as [Hs Hin].
           unfold suitable in Hs. apply andb_true_iff in Hs as [Hn Hw].
           split_and!; [done..|]. exists sv0. split_and!; [left|done..].
        -- split; [done|]. intros Hall.
           destruct (firstSuitable_Some _ _ Hf) as [Hs Hin].
           specialize (Hall sv0 c0 (proj2 (elem_of_cons _ _ _) (or_introl eq_refl)) Hlong Hin).
           unfold suitable in Hs. congruence.
      * split.
        -- intros c Hc. destruct (IHs c Hc) as (Hn & Hw & sv & Hsv & Hlen & Hin).
           split_and!; [done..|]. exists sv. split_and!; [by right|done..].
        -- rewrite IHn. split.
           ++ intros Hall sv c [->|Hsv]%elem_of_cons Hlen Hin.
              ** by apply (proj1 (firstSuitable_None _) Hf).
              ** by eapply Hall.
           ++ intros Hall sv c Hsv. apply Hall. by right.
Qed.

(** ** Sending on a closed channel *)

(** X3.  [sendPacketWaitResponse] on a client whose channel is unset: the
    turn that runs [send] throws "Channel is closed"; nothing is slept,
    written or dispatched, no listener and no timer are created, and the
    mutex is handed on. *)
Theorem exchange_on_closed_channel :
  forall (s : Client) (t : nat) packet timeoutMs,
    reachable s ->
    tasks s !! t = Some {| call := SendPacketWaitResponse packet timeoutMs;
                           phase := Acquired |} ->
    channel s = None ->
    exists s',
      step (Resume t Fulfilled) s = Some s' /\
      tasks s' !! t = Some {| call := SendPacketWaitResponse packet timeoutMs;
                              phase := Settled (Thrown (JsError "Channel is closed")) |} /\
      trace s' = trace s /\
      packetListeners s' = packetListeners s /\ timers s' = timers s /\
      (queue (mutex s) = [] -> mutex s' = {| locked := false; queue := [] |}) /\
      (forall h q, queue (mutex s) = h :: q ->
         mutex s' = {| locked := true; queue := q |} /\
         phaseAt s' h = Some Acquired /\
         is_Some (step (Resume h Fulfilled) s')).
Proof.
  intros s t packet timeoutMs Hr Hk Hc. pose proof (reachable_Inv _ Hr) as HI.
  rewrite (step_resume _ _ _ _ Hk). cbn [resume phase]. unfold sendCheck. rewrite Hc.
  set (k := {| call := SendPacketWaitResponse packet timeoutMs; phase := Acquired |}).
  set (o := Thrown (JsError "Channel is closed")).
  pose proof (settle_frame t k o s) as (Htr & _ & _ & _ & Hls & Htm & _).
  pose proof (settle_mutex t k o s s HI eq_refl eq_refl) as Hm.
  cbn [call usesMutex k] in Hm. apply handedOver_next in Hm as [Hm1 Hm2].
  eexists. split; [done|]. split_and!; try done.
  by apply (settle_phase t k o s s HI Hk).
Qed.

(** X4.  When the channel is unset while a call sleeps the inter-packet
    delay, the write is a call on [undefined]: the call throws a
    TypeError, not "Channel is closed"; nothing is written and
    "rawpacketsent" is not dispatched.  A call that holds the mutex hands
    it on. *)
Theorem channel_lost_during_sleep :
  forall (s : Client) (t : nat) (k : Task),
    reachable s ->
    tasks s !! t = Some k -> phase k = Sleeping ->
    channel s = None ->
    exists s',
      step (Resume t Fulfilled) s = Some s' /\
      tasks s' !! t = Some {| call := call k; phase := Settled (Thrown JsTypeError) |} /\
      trace s' = trace s /\
      (usesMutex (call k) = false -> mutex s' = mutex s) /\
      (usesMutex (call k) = true ->
         (queue (mutex s) = [] -> mutex s' = {| locked := false; queue := [] |}) /\
         (forall h q, queue (mutex s) = h :: q ->
            mutex s' = {| locked := true; queue := q |} /\
            phaseAt s' h = Some Acquired)).
Proof.
  intros s t k Hr Hk Hph Hc. pose proof (reachable_Inv _ Hr) as HI.
  rewrite (step_resume _ _ _ _ Hk). unfold resume. rewrite Hph.
  unfold sendWrite. rewrite Hc.
  pose proof (settle_frame t k (Thrown JsTypeError) s) as (Htr & _).
  pose proof (settle_mutex t k (Thrown JsTypeError) s s HI eq_refl eq_refl) as Hm.
  eexists. split; [done|]. split_and!.
  - apply (settle_phase t k _ s s HI Hk); [congruence|done..].
  - done.
  - intros Hu. by rewrite Hu in Hm.
  - intros Hu. rewrite Hu in Hm. apply handedOver_next in Hm as [Hm1 Hm2].
    split; [done|]. intros h q Hq. destruct (Hm2 h q Hq) as (? & ? & _). done.
Qed.

(** ** The window between the write and the listener *)

Lemma holder_not_awaiting_no_listener s t k :
  Inv s -> tasks s !! t = Some k -> holdsMutex k = true -> phase k <> Awaiting ->
  packetListeners s = [].
Proof.
  intros HI Hk Hh HA.
  destruct (listeners_at_most_one s HI) as [Hnil|[t' Hl]]; [done|].
  destruct (inv_listeners _ HI t') as (k' & Hk' & Hph'); [rewrite Hl; left|].
  assert (t' = t) as ->.
  { apply (inv_exclusive _ HI t' t k' k Hk' Hk); [|done].
    pose proof (inv_phase _ HI _ _ Hk') as Hok. rewrite Hph' in Hok.
    unfold holdsMutex. rewrite Hph'. simpl in *. by destruct (call k'). }
  congruence.
Qed.

(** X5.  A packet that arrives while the write of a request is still in
    flight finds no listener: it is published, and the request, the timers
    and the mutex stay as they are, whether or not the packet would have
    been a valid response. *)
Theorem response_before_listener_is_lost :
  forall (s : Client) (t : nat) packet timeoutMs c bytes received,
    reachable s ->
    tasks s !! t = Some {| call := SendPacketWaitResponse packet timeoutMs;
                           phase := Writing |} ->
    c ∈ valueListeners s ->
    fromBytes bytes = Some received ->
    exists s',
      step (CharacteristicValueChanged c bytes) s = Some s' /\
      packetListeners s = [] /\
      tasks s' = tasks s /\ packetListeners s' = [] /\
      timers s' = timers s /\ mutex s' = mutex s.
Proof.
  intros s t packet timeoutMs c bytes received Hr Hk Hc Hdec.
  assert (Hnil : packetListeners s = []).
  { by apply (holder_not_awaiting_no_listener s t _ (reachable_Inv _ Hr) Hk). }
  cbn [step]. rewrite decide_True by done. eexists. split; [done|].
  unfold onCharacteristicValueChanged. rewrite Hdec. unfold dispatchPacketReceived.
  cbn [packetListeners emit]. rewrite Hnil. cbn [fold_left].
  destruct (inResponseCommandId (command received)); cbn; by rewrite Hnil.
Qed.

(** ** Listeners and timers *)

Lemma Inv_unlocked_empty s :
  Inv s -> locked (mutex s) = false -> packetListeners s = [] /\ timers s = [].
Proof.
  intros HI Hlk. destruct (inv_unlocked _ HI Hlk) as [_ Hnone].
  assert (Hno : forall t k, tasks s !! t = Some k -> phase k = Awaiting -> False).
  { intros t k Hk Hph. pose proof (inv_phase _ HI _ _ Hk) as Hok. rewrite Hph in Hok.
    specialize (Hnone _ _ Hk). unfold holdsMutex in Hnone. rewrite Hph in Hnone.
    simpl in *. by destruct (call k). }
  split.
  - destruct (packetListeners s) as [|t l] eqn:Hl; [done|].
    destruct (inv_listeners _ HI t) as (k & Hk & Hph); [rewrite Hl; left|].
    by destruct (Hno _ _ Hk Hph).
  - destruct (timers s) as [|[t d] l] eqn:Hl; [done|].
    destruct (inv_timers _ HI t d) as (k & Hk & Hph); [rewrite Hl; left|].
    by destruct (Hno _ _ Hk Hph).
Qed.

(** X7.  Listeners and timers exist only for the request that awaits its
    response: a call in any other phase has no listener and its timer
    cannot fire, and while the mutex is free there is no listener and no
    timer at all. *)
Theorem no_listener_or_timer_unless_awaiting :
  forall s : Client,
    reachable s ->
    (forall t k, tasks s !! t = Some k -> phase k <> Awaiting ->
       (t ∉ packetListeners s) /\ step (TimerFired t) s = None) /\
    (locked (mutex s) = false -> packetListeners s = [] /\ timers s = []).
Proof.
  intros s Hr. pose proof (reachable_Inv _ Hr) as HI. split.
  - intros t k Hk HA. destruct (Inv_not_pending _ _ _ HI Hk HA) as [Hls Htm]. split.
    + intros Hin. destruct (inv_listeners _ HI _ Hin) as (k' & Hk' & Hph'). congruence.
    + cbn [step]. destruct (deadlineOf t (timers s)) as [d|] eqn:Hd; [|done].
      apply deadlineOf_Some in Hd.
      destruct (inv_timers _ HI _ _ Hd) as (k' & Hk' & Hph'). congruence.
  - by apply Inv_unlocked_empty.
Qed.

(** ** The "gattserverdisconnected" listeners *)

Lemma removeFirst_app d pre l :
  d ∉ pre -> removeFirst d (pre ++ d :: l) = pre ++ l.
Proof.
  induction pre as [|d' pre IH]; intros Hnin; cbn [removeFirst app].
  - by rewrite decide_True.
  - apply not_elem_of_cons in Hnin as [Hne Hnin].
    rewrite decide_False by congruence. by rewrite IH.
Qed.

Lemma dispatchGattServerDisconnected_listeners d l :
  forall pre s,
    d ∉ pre -> disconnectListeners s = pre ++ l ->
    disconnectListeners (dispatchGattServerDisconnected d l s)
      = pre ++ filter (fun d' => d' <> d) l /\
    trace (dispatchGattServerDisconnected d l s)
      = trace s ++ replicate (length (filter (fun d' => d' = d) l)) (Dispatch DisconnectEvent).
Proof.
  induction l as [|d' l IH]; intros pre s Hnin Hl; cbn [dispatchGattServerDisconnected].
  - rewrite Hl. split; [done|]. cbn. by rewrite app_nil_r.
  - case_decide as Hd.
    + subst d'. rewrite filter_cons_False by (intros Hne; by apply Hne).
      rewrite filter_cons_True by done.
      destruct (IH pre (disconnectListener d s) Hnin) as [Hls Htr].
      { unfold disconnectListener.
        cbn [disconnectListeners withDisconnectListeners emit withSession].
        rewrite Hl. by apply removeFirst_app. }
      split; [done|]. rewrite Htr. unfold disconnectListener.
      cbn [trace withDisconnectListeners emit withSession length replicate].
      by rewrite <- app_assoc.
    + rewrite filter_cons_True by done. rewrite filter_cons_False by done.
      destruct (IH (pre ++ [d']) s) as [Hls Htr].
      { apply not_elem_of_app. split; [done|].
        apply not_elem_of_cons. split; [congruence|apply not_elem_of_nil]. }
      { rewrite Hl. by rewrite <- app_assoc. }
      split; [|done]. rewrite Hls. by rewrite <- app_assoc.
Qed.

(** X8.  A "gattserverdisconnected" event of a device runs every listener
    that [connect()] registered on it (lines 46-54), each of them once: the
    session is cleared, one "disconnect" event is dispatched for each
    registration of the device, all of them are removed and the listeners
    of other devices stay.  A further event of the device finds no
    listener. *)
Theorem gattserverdisconnected_runs_every_listener :
  forall (s : Client) (d : BluetoothDevice),
    d ∈ disconnectListeners s ->
    exists s',
      step (GattServerDisconnected d) s = Some s' /\
      trace s' = trace s
        ++ replicate (length (filter (fun d' => d' = d) (disconnectListeners s)))
                     (Dispatch DisconnectEvent) /\
      isConnected s' = false /\ info s' = emptyInfo /\
      disconnectListeners s' = filter (fun d' => d' <> d) (disconnectListeners s) /\
      (d ∉ disconnectListeners s') /\
      step (GattServerDisconnected d) s' = None.
Proof.
  intros s d Hd. cbn [step]. rewrite decide_True by done.
  eexists. split; [done|].
  pose proof (dispatchGattServerDisconnected_session d _ s Hd) as (Hg & Hc & Hi).
  destruct (dispatchGattServerDisconnected_listeners d (disconnectListeners s) [] s)
    as [Hls Htr]; [apply not_elem_of_nil|done|].
  cbn [app] in Hls.
  assert (d ∉ filter (fun d' => d' <> d) (disconnectListeners s)) as Hnin.
  { intros [Hne _]%list_elem_of_filter. by apply Hne. }
  split_and!; try done.
  - unfold isConnected. by rewrite Hg.
  - by rewrite Hls.
  - rewrite Hls. by rewrite decide_False.
Qed.

(** ** Outcomes are final *)

Lemma final_refl s : final s s.
Proof. by intros i k o Hk _. Qed.

Lemma final_tasks s s' : tasks s' = tasks s -> final s s'.
Proof. intros Hts i k o Hk _. by rewrite Hts. Qed.

Lemma final_setPhase t k ph s x :
  tasks s !! t = Some k -> (forall o, phase k <> Settled o) ->
  tasks x = tasks s -> final s (setPhase t ph x).
Proof.
  intros Hk Hns Hts i k' o Hk' Hph. rewrite lookup_setPhase_ne; [by rewrite Hts|].
  intros ->. rewrite Hk in Hk'. injection Hk' as <-. by eapply Hns.
Qed.

Lemma final_settle t k o s x :
  Inv s -> tasks s !! t = Some k -> (forall o', phase k <> Settled o') ->
  tasks x = tasks s -> mutex x = mutex s -> final s (settle t k o x).
Proof.
  intros HI Hk Hns Hts Hmx i k' o' Hk' Hph.
  rewrite settle_other; [by rewrite Hts| |].
  - intros ->. rewrite Hk in Hk'. injection Hk' as <-. by eapply Hns.
  - rewrite Hmx. intros Hhead.
    destruct (queue (mutex s)) as [|h q] eqn:Hq; [done|]. injection Hhead as ->.
    destruct (inv_queue _ HI i) as (k0 & Hk0 & Hph0); [rewrite Hq; left|]. congruence.
Qed.

Lemma final_listener t received s x :
  Inv s -> tasks x = tasks s -> mutex x = mutex s -> final s (listener t received x).
Proof.
  intros HI Hts Hmx. unfold listener. rewrite Hts.
  destruct (tasks s !! t) as [k|] eqn:Hk; [|by apply final_tasks].
  destruct (call k); try (by apply final_tasks).
  destruct (isValidResponse packet received); [|by apply final_tasks].
  unfold settlePromise. destruct (phase k) eqn:Hph; try (by apply final_tasks).
  apply final_settle; try done. intros o'. by rewrite Hph.
Qed.

Lemma final_resume t k r s s' :
  Inv s -> tasks s !! t = Some k -> resume t k r s = Some s' -> final s s'.
Proof.
  intros HI Hk. unfold resume.
  destruct (phase k) eqn:Hph; destruct r; try done; intros [= <-];
    try (apply final_settle; try done; intros o'; by rewrite Hph).
  - unfold sendCheck. destruct (channel s).
    + eapply final_setPhase; try done. intros o'. by rewrite Hph.
    + apply final_settle; try done. intros o'. by rewrite Hph.
  - unfold sendWrite. destruct (channel s).
    + eapply final_setPhase; try done. intros o'. by rewrite Hph.
    + apply final_settle; try done. intros o'. by rewrite Hph.
  - unfold sendDone. destruct (call k); [| |apply final_refl].
    + destruct (oneWay packet).
      * apply final_settle; try done. intros o'. by rewrite Hph.
      * eapply final_setPhase; try done. intros o'. by rewrite Hph.
    + apply final_settle; try done. intros o'. by rewrite Hph.
  - unfold connectDevice. destruct (gatt d).
    + eapply final_setPhase; try done. intros o'. by rewrite Hph.
    + apply final_settle; try done. intros o'. by rewrite Hph.
  - eapply final_setPhase; try done. intros o'. by rewrite Hph.
  - unfold connectSelect. destruct (findSuitableBluetoothCharacteristic g).
    + eapply final_setPhase; try done. intros o'. by rewrite Hph.
    + apply final_settle; try done. intros o'. by rewrite Hph.
  - unfold connectAssign. eapply final_setPhase; try done. intros o'. by rewrite Hph.
Qed.

(** X6.  A call that has returned or thrown keeps its outcome: no later
    turn, no packet, no timer and no disconnect changes it. *)
Theorem outcome_is_final :
  forall (s s' : Client) (a : Action) (t : nat) (k : Task) (o : Outcome),
    reachable s ->
    tasks s !! t = Some k -> phase k = Settled o ->
    step a s = Some s' ->
    tasks s' !! t = Some k.
Proof.
  intros s s' a t k o Hr Hk Hph Hstep. pose proof (reachable_Inv _ Hr) as HI.
  pose proof (lookup_tasks_lt _ _ _ Hk) as Hlt.
  cut (final s s'); [intros Hf; by eapply Hf|]. clear Hk Hph.
  destruct a; cbn [step] in Hstep.
  - injection Hstep as <-. unfold invoke.
    assert (Hacq : forall c', final s (acquire (length (tasks s)) (spawn c' Queued s))).
    { intros c' i k' o' Hk' Hph'. unfold acquire.
      pose proof (lookup_tasks_lt _ _ _ Hk') as Hi.
      destruct (locked _); change (tasks (withMutex ?m ?x)) with (tasks x);
        (rewrite lookup_setPhase_ne by lia); by apply lookup_spawn_old. }
    destruct c as [packet timeoutMs|bytes [|]|]; [apply Hacq| |apply Hacq|].
    + intros i k' o' Hk' Hph'. pose proof (lookup_tasks_lt _ _ _ Hk') as Hi.
      unfold sendCheck. destruct (channel _).
      * rewrite lookup_setPhase_ne by lia. by apply lookup_spawn_old.
      * unfold settle. cbn [call usesMutex negb].
        rewrite lookup_setPhase_ne by lia. by apply lookup_spawn_old.
    + intros i k' o' Hk' Hph'. unfold connectBegin, disconnect.
      destruct (gattServer _); by apply lookup_spawn_old.
  - injection Hstep as <-. apply final_tasks. unfold disconnect.
    by destruct (gattServer _).
  - destruct (tasks s !! t0) as [k0|] eqn:Hk0; [|done]. by eapply final_resume.
  - case_decide; [|done]. injection Hstep as <-. apply final_tasks.
    apply dispatchGattServerDisconnected_frame.
  - case_decide; [|done]. injection Hstep as <-.
    unfold onCharacteristicValueChanged. destruct (fromBytes bytes) as [p|]; [|apply final_refl].
    assert (final s (dispatchPacketReceived p
                       (emit [Dispatch (RawPacketReceivedEvent bytes)] s))) as Hd.
    { unfold dispatchPacketReceived. cbn [packetListeners emit].
      destruct (listeners_at_most_one s HI) as [->|[t' ->]]; cbn [fold_left].
      - by apply final_tasks.
      - by apply final_listener. }
    destruct (inResponseCommandId (command p)); [done|].
    intros i k' o' Hk' Hph'. by apply (Hd i k' o').
  - destruct (deadlineOf t0 (timers s)); [|done].
    destruct (_ <=? _)%Z; [|done]. injection Hstep as <-.
    unfold onTimeout. change (tasks (withTimers ?l ?x)) with (tasks x).
    destruct (tasks s !! t0) as [k0|] eqn:Hk0; [|by apply final_tasks].
    destruct (call k0); try (by apply final_tasks).
    unfold settlePromise. destruct (phase k0) eqn:Hph0; try (by apply final_tasks).
    apply final_settle; try done. intros o'. by rewrite Hph0.
  - destruct (_ <=? _)%Z; [|done]. injection Hstep as <-. by apply final_tasks.
  - injection Hstep as <-. by apply final_tasks.
Qed.

(** ** connect, from the call to its end *)

Lemma disconnect_frame s :
  tasks (disconnect s) = tasks s /\ mutex (disconnect s) = mutex s /\
  disconnectListeners (disconnect s) = disconnectListeners s /\
  valueListeners (disconnect s) = valueListeners s /\
  gattServer (disconnect s) = None /\ channel (disconnect s) = None /\
  info (disconnect s) = emptyInfo /\
  packetListeners (disconnect s) = packetListeners s /\ timers (disconnect s) = timers s.
Proof. unfold disconnect. cbn [gattServer emit]. by destruct (gattServer s). Qed.

Lemma invoke_connect_task s :
  tasks (invoke Connect s) !! length (tasks s)
    = Some {| call := Connect; phase := RequestingDevice |}.
Proof.
  unfold invoke, connectBegin.
  pose proof (lookup_spawn_new Connect RequestingDevice
                (emit [RequestDevice] (disconnect s))) as Hnew.
  cbn [tasks emit] in Hnew. destruct (disconnect_frame s) as (Hts & _).
  rewrite Hts in Hnew. exact Hnew.
Qed.

(** X9.  [connect()] with a chosen device that has no GATT profile: it
    has disconnected first, and then throws without adding the
    "gattserverdisconnected" listener and without connecting; the client
    stays disconnected. *)
Theorem connect_without_gatt :
  forall (s0 : Client) (d : BluetoothDevice),
    gatt d = None ->
    exists s',
      run [Invoke Connect; Resume (length (tasks s0)) (Chosen d)] s0 = Some s' /\
      tasks s' !! length (tasks s0) = Some {| call := Connect;
        phase := Settled (Thrown
          (JsError "Device has no Bluetooth Generic Attribute Profile")) |} /\
      trace s' = trace (disconnect s0) ++ [RequestDevice] /\
      disconnectListeners s' = disconnectListeners s0 /\
      valueListeners s' = valueListeners s0 /\
      gattServer s' = None /\ channel s' = None /\ isConnected s' = false.
Proof.
  intros s0 d Hgatt. cbn [run step].
  rewrite (invoke_connect_task s0). cbn [resume phase]. unfold connectDevice.
  rewrite Hgatt. eexists. split; [done|].
  unfold settle. cbn [call usesMutex].
  destruct (disconnect_frame s0) as (_ & _ & Hdl & Hvl & Hg & Hc & _).
  split_and!.
  - apply (lookup_setPhase_eq _ _ _ _ (invoke_connect_task s0)).
  - done.
  - exact Hdl.
  - exact Hvl.
  - exact Hg.
  - exact Hc.
  - unfold isConnected. cbn [gattServer channel setPhase withTasks invoke connectBegin
                             spawn emit].
    by rewrite Hg.
Qed.

(** X10.  [connect()] from the call to its return, with a device that has
    a suitable characteristic [c] and a negotiation that stores [i]: the
    old session is disconnected first, the device gets the disconnect
    listener and [c] the value listener, the session is [g] and [c], and
    the call returns after dispatching the connect event, with the name of
    the device and [connectResult] of [i], or FirmwareErrors when [i] has
    none. *)
Theorem connect_from_call_to_return :
  forall (s0 : Client) (d : BluetoothDevice) g c (i : PrinterInfo),
    gatt d = Some g ->
    findSuitableBluetoothCharacteristic g = Some c ->
    let t := length (tasks s0) in
    let r := {| deviceName := name d;
                result := default ConnectResult_FirmwareErrors (connectResult i) |} in
    exists s',
      run [Invoke Connect; Resume t (Chosen d); Resume t Fulfilled; Resume t Fulfilled;
           Resume t Fulfilled; StoreInfo i; Resume t Fulfilled] s0 = Some s' /\
      tasks s' !! t = Some {| call := Connect; phase := Settled (ReturnedInfo r) |} /\
      gattServer s' = Some g /\ channel s' = Some c /\ info s' = i /\
      isConnected s' = true /\
      trace s' = trace (disconnect s0)
        ++ [RequestDevice; GattConnect d;
            ConsoleLog ("Found suitable characteristic " ++ characteristic_uuid c);
            StartNotifications c; Dispatch (ConnectEvent r)] /\
      disconnectListeners s' = disconnectListeners s0 ++ [d] /\
      valueListeners s' = valueListeners s0 ++ [c] /\
      mutex s' = mutex s0.
Proof.
  intros s0 d g c i Hgatt Hfind t r.
  destruct (disconnect_frame s0) as (Hts & Hmx & Hdl & Hvl & _).
  pose proof (invoke_connect_task s0) as H1. fold t in H1.
  cbn [run step]. rewrite H1. cbn [resume phase]. unfold connectDevice. rewrite Hgatt.
  set (s2 := setPhase t (GattConnecting d g) _).
  assert (H2 : tasks s2 !! t = Some {| call := Connect; phase := GattConnecting d g |})
    by apply (lookup_setPhase_eq t _ _ _ H1).
  rewrite H2. cbn [resume phase].
  set (s3 := setPhase t (Finding d g) s2).
  assert (H3 : tasks s3 !! t = Some {| call := Connect; phase := Finding d g |})
    by apply (lookup_setPhase_eq t _ _ _ H2).
  rewrite H3. cbn [resume phase]. unfold connectSelect. rewrite Hfind.
  set (s4 := setPhase t (StartingNotifications d g c) _).
  assert (H4 : tasks s4 !! t
               = Some {| call := Connect; phase := StartingNotifications d g c |})
    by apply (lookup_setPhase_eq t _ _ _ H3).
  rewrite H4. cbn [resume phase]. unfold connectAssign.
  set (s5 := setPhase t (Negotiating d) _).
  assert (H5 : tasks s5 !! t = Some {| call := Connect; phase := Negotiating d |})
    by apply (lookup_setPhase_eq t _ _ _ H4).
  change (tasks (withSession ?a ?b ?j ?x)) with (tasks x). rewrite H5.
  cbn [resume phase]. unfold connectFinish, settle. cbn [call usesMutex].
  eexists. split; [done|]. split_and!.
  - apply (lookup_setPhase_eq t _ _ _ H5).
  - done.
  - done.
  - done.
  - done.
  - cbn -[disconnect]. by rewrite <- !app_assoc.
  - cbn -[disconnect]. by rewrite Hdl.
  - cbn -[disconnect]. by rewrite Hvl.
  - cbn -[disconnect]. exact Hmx.
Qed.

(** ** A forced send during an exchange *)

Lemma outside_resume_frame t' k' r s s' :
  usesMutex (call k') = false -> (forall p m, call k' <> SendPacketWaitResponse p m) ->
  resume t' k' r s = Some s' ->
  (forall j, j <> t' -> tasks s' !! j = tasks s !! j) /\
  mutex s' = mutex s /\ packetListeners s' = packetListeners s /\
  timers s' = timers s.
Proof.
  intros Hu Hns. unfold resume.
  assert (Hsettle : forall o x,
    tasks x = tasks s -> mutex x = mutex s ->
    packetListeners x = packetListeners s -> timers x = timers s ->
    (forall j, j <> t' -> tasks (settle t' k' o x) !! j = tasks s !! j) /\
    mutex (settle t' k' o x) = mutex s /\
    packetListeners (settle t' k' o x) = packetListeners s /\
    timers (settle t' k' o x) = timers s).
  { intros o x Hts Hmx Hls Htm. unfold settle. rewrite Hu. split_and!; try done.
    intros j Hj. rewrite lookup_setPhase_ne by done. by rewrite Hts. }
  assert (Hset : forall ph x,
    tasks x = tasks s -> mutex x = mutex s ->
    packetListeners x = packetListeners s -> timers x = timers s ->
    (forall j, j <> t' -> tasks (setPhase t' ph x) !! j = tasks s !! j) /\
    mutex (setPhase t' ph x) = mutex s /\
    packetListeners (setPhase t' ph x) = packetListeners s /\
    timers (setPhase t' ph x) = timers s).
  { intros ph x Hts Hmx Hls Htm. split_and!; try done.
    intros j Hj. rewrite lookup_setPhase_ne by done. by rewrite Hts. }
  destruct (phase k'); destruct r; try done; intros [= <-];
    try (by apply Hsettle); try (by apply Hset).
  - unfold sendCheck. destruct (channel s); [by apply Hset|by apply Hsettle].
  - unfold sendWrite. destruct (channel s); [by apply Hset|by apply Hsettle].
  - unfold sendDone. destruct (call k') eqn:Hc; [by edestruct Hns|by apply Hsettle|done].
  - unfold connectDevice. destruct (gatt d); [by apply Hset|by apply Hsettle].
  - unfold connectSelect. destruct (findSuitableBluetoothCharacteristic g);
      [by apply Hset|by apply Hsettle].
Qed.

(** X11.  [sendRaw] with [force] during a pending exchange does not wait:
    with the channel set its call already sleeps the inter-packet delay.
    Neither the call nor any of its later turns touches the pending
    request, its listener, its timer or the mutex. *)
Theorem forced_send_leaves_pending_exchange :
  forall (s : Client) (t : nat) packet timeoutMs (bytes : list byte),
    pendingRequest s t packet timeoutMs ->
    (pendingRequest (invoke (SendRaw bytes true) s) t packet timeoutMs /\
     mutex (invoke (SendRaw bytes true) s) = mutex s /\
     packetListeners (invoke (SendRaw bytes true) s) = packetListeners s /\
     timers (invoke (SendRaw bytes true) s) = timers s /\
     (forall c, channel s = Some c ->
        phaseAt (invoke (SendRaw bytes true) s) (length (tasks s)) = Some Sleeping /\
        trace (invoke (SendRaw bytes true) s) = trace s ++ [Sleep (packetIntervalMs s)])) /\
    (forall t' ph r s',
       tasks s !! t' = Some {| call := SendRaw bytes true; phase := ph |} ->
       step (Resume t' r) s = Some s' ->
       pendingRequest s' t packet timeoutMs /\ mutex s' = mutex s /\
       packetListeners s' = packetListeners s /\ timers s' = timers s).
Proof.
  intros s t packet timeoutMs bytes Hp. split.
  - unfold invoke.
    set (k := {| call := SendRaw bytes true; phase := Acquired |}).
    set (x := spawn (SendRaw bytes true) Acquired s).
    assert (Hx : tasks x !! length (tasks s) = Some k) by apply lookup_spawn_new.
    assert (Hpx : tasks x !! t = Some {| call := SendPacketWaitResponse packet timeoutMs;
                                         phase := Awaiting |})
      by (by apply lookup_spawn_old).
    assert (Hne : t <> length (tasks s)).
    { apply lookup_tasks_lt in Hp. lia. }
    destruct (outside_resume_frame (length (tasks s)) k Fulfilled x (sendCheck (length (tasks s)) k x))
      as (Hts & Hmx & Hls & Htm); [done|done|done|].
    split_and!; try done.
    + unfold pendingRequest. by rewrite Hts.
    + intros c Hc. unfold sendCheck. change (channel x) with (channel s). rewrite Hc.
      split; [|done]. by apply (phaseAt_setPhase _ _ k).
  - intros t' ph r s' Hk' Hstep. rewrite (step_resume _ _ _ _ Hk') in Hstep.
    assert (Hne : t <> t').
    { intros ->. unfold pendingRequest in Hp. congruence. }
    destruct (outside_resume_frame t' {| call := SendRaw bytes true; phase := ph |}
                r s s') as (Hts & Hmx & Hls & Htm); [done..|].
    split_and!; try done. unfold pendingRequest. by rewrite Hts.
Qed.

(** ** Whole exchanges *)

Lemma run_app acts1 acts2 s :
  run (acts1 ++ acts2) s = match run acts1 s with
                           | Some s1 => run acts2 s1
                           | None => None
                           end.
Proof.
  revert s. induction acts1 as [|a acts1 IH]; intros s; cbn [run app]; [done|].
  destruct (step a s); [apply IH|done].
Qed.

Lemma run_cons a rest s s1 : step a s = Some s1 -> run (a :: rest) s = run rest s1.
Proof. intros Hstep. cbn [run]. by rewrite Hstep. Qed.

Lemma reachable_step a s s' : reachable s -> step a s = Some s' -> reachable s'.
Proof.
  intros (interval & acts & Hrun) Hstep. exists interval, (acts ++ [a]).
  rewrite run_app, Hrun. cbn [run]. by rewrite Hstep.
Qed.

(** The timer of the pending exchange fires. *)
Lemma timeout_settles s t packet timeoutMs deadline :
  Inv s -> pendingRequest s t packet timeoutMs ->
  deadlineOf t (timers s) = Some deadline -> (deadline <= clock s)%Z ->
  exists s',
    step (TimerFired t) s = Some s' /\
    tasks s' !! t = Some {| call := SendPacketWaitResponse packet timeoutMs;
      phase := Settled (Thrown (JsError (timeoutMessage packet))) |} /\
    gattServer s' = gattServer s /\ channel s' = channel s /\
    packetListeners s' = removeEventListener t (packetListeners s) /\
    handedOver s s'.
Proof.
  intros HI Hp Hd Hle. cbn [step]. rewrite Hd, (proj2 (Z.leb_le _ _) Hle).
  rewrite (onTimeout_pending (withTimers (clearTimeout t (timers s)) s)
             t packet timeoutMs Hp).
  set (k := {| call := SendPacketWaitResponse packet timeoutMs; phase := Awaiting |}).
  set (o := Thrown (JsError (timeoutMessage packet))).
  set (s1 := withPacketListeners _ _).
  pose proof (settle_frame t k o s1) as (_ & Hg & Hc & _ & Hls & _).
  eexists. split; [done|]. split_and!; try done.
  - by apply (settle_phase t k o s s1 HI Hp).
  - by apply (settle_mutex t k o s s1 HI).
Qed.

(** X12.  A request that is pending when the caller disconnects ends by
    its timeout: once the deadline has passed the timer fires on the
    disconnected client, and the call throws the timeout error. *)
Theorem pending_request_times_out_after_disconnect :
  forall (s : Client) (t : nat) packet timeoutMs deadline (ms : Z),
    reachable s ->
    pendingRequest s t packet timeoutMs ->
    deadlineOf t (timers s) = Some deadline ->
    (0 <= ms)%Z -> (deadline <= clock s + ms)%Z ->
    exists s',
      run [InvokeDisconnect; Elapse ms; TimerFired t] s = Some s' /\
      tasks s' !! t = Some {| call := SendPacketWaitResponse packet timeoutMs;
        phase := Settled (Thrown (JsError
          ("Timeout waiting response (waited for "
           ++ bufToHex (validResponseIds packet) ", " ++ ")"))) |} /\
      isConnected s' = false /\ (t ∉ packetListeners s').
Proof.
  intros s t packet timeoutMs deadline ms Hr Hp Hd Hms Hle.
  destruct (disconnect_frame s) as (Hts & Hmx & _ & _ & Hg & Hc & _ & Hls & Htm).
  assert (Hr1 : reachable (disconnect s)) by (by apply (reachable_step InvokeDisconnect s)).
  set (s2 := withClock (clock (disconnect s) + ms) (disconnect s)).
  assert (Hs2 : step (Elapse ms) (disconnect s) = Some s2).
  { cbn [step]. by rewrite (proj2 (Z.leb_le _ _) Hms). }
  assert (Hr2 : reachable s2) by (by apply (reachable_step (Elapse ms) (disconnect s))).
  destruct (timeout_settles s2 t packet timeoutMs deadline (reachable_Inv _ Hr2))
    as (s' & Hstep & Hk & Hg' & Hc' & Hls' & _).
  - unfold pendingRequest. cbn [s2 tasks withClock]. by rewrite Hts.
  - cbn [s2 timers withClock]. by rewrite Htm.
  - cbn [s2 clock withClock]. unfold disconnect. cbn [clock withSession].
    by destruct (gattServer (emit [StopHeartbeat] s)).
  - exists s'.
    rewrite (run_cons InvokeDisconnect _ s (disconnect s) eq_refl).
    rewrite (run_cons _ _ _ _ Hs2), (run_cons _ _ _ _ Hstep).
    split; [done|]. split_and!.
    + exact Hk.
    + unfold isConnected. rewrite Hg'. cbn [s2 gattServer withClock]. by rewrite Hg.
    + rewrite Hls'. intros [Hne _]%removeEventListener_elem. done.
Qed.


End Extras.

(** * The further properties on the printer of [Demo] *)

Section ExtraWitnesses.
#[local] Existing Instance Demo.collaborators.

Lemma findSuitableBluetoothCharacteristic_sound_complete_witness :
  findSuitableBluetoothCharacteristic Demo.printerServer = Some Demo.vendorChannel /\
  exists sv, sv ∈ getPrimaryServices Demo.printerServer /\
             5 <= String.length (uuid sv) /\
             Demo.vendorChannel ∈ getCharacteristics sv.
Proof.
  split; [reflexivity|].
  destruct (proj1 (findSuitableBluetoothCharacteristic_sound_complete Demo.printerServer)
              Demo.vendorChannel) as (_ & _ & Hsv).
  - reflexivity.
  - exact Hsv.
Defined.

Lemma exchange_on_closed_channel_witness :
  exists s',
    step (Resume 0 Fulfilled) Demo.closedExchange = Some s' /\
    tasks s' !! 0 = Some {| call := SendPacketWaitResponse Demo.query None;
                            phase := Settled (Thrown (JsError "Channel is closed")) |} /\
    trace s' = [] /\ mutex s' = {| locked := false; queue := [] |}.
Proof.
  destruct (exchange_on_closed_channel Demo.closedExchange 0 Demo.query None)
    as (s' & Hstep & Hk & Htr & _ & _ & Hfree & _).
  - exists 10%Z, [Invoke (SendPacketWaitResponse Demo.query None)]. vm_compute. reflexivity.
  - vm_compute. reflexivity.
  - reflexivity.
  - exists s'. split; [exact Hstep|]. split; [exact Hk|]. split; [exact Htr|].
    apply Hfree. reflexivity.
Defined.

Lemma channel_lost_during_sleep_witness :
  exists s',
    step (Resume 1 Fulfilled) Demo.sleepingDisconnected = Some s' /\
    tasks s' !! 1 = Some {| call := SendRaw [x01; x02] false;
                            phase := Settled (Thrown JsTypeError) |} /\
    trace s' = trace Demo.sleepingDisconnected.
Proof.
  destruct (channel_lost_during_sleep Demo.sleepingDisconnected 1
              {| call := SendRaw [x01; x02] false; phase := Sleeping |})
    as (s' & Hstep & Hk & Htr & _).
  - apply (after_reachable
      [Invoke (SendRaw [x01; x02] false); Resume 1 Fulfilled; InvokeDisconnect]).
    vm_compute. reflexivity.
  - vm_compute. reflexivity.
  - reflexivity.
  - reflexivity.
  - exists s'. split; [exact Hstep|]. split; [exact Hk|exact Htr].
Defined.

Lemma response_before_listener_is_lost_witness :
  isValidResponse Demo.query
    {| command := 5; data := []; oneWay := false; validResponseIds := [] |} = true /\
  exists s',
    step (CharacteristicValueChanged Demo.vendorChannel [x05]) Demo.writingQuery = Some s' /\
    tasks s' = tasks Demo.writingQuery /\ packetListeners s' = [].
Proof.
  split; [reflexivity|].
  destruct (response_before_listener_is_lost Demo.writingQuery 1 Demo.query None
              Demo.vendorChannel [x05]
              {| command := 5; data := []; oneWay := false; validResponseIds := [] |})
    as (s' & Hstep & _ & Hts & Hls & _).
  - apply (after_reachable (Demo.exchange Demo.query None 2)). vm_compute. reflexivity.
  - vm_compute. reflexivity.
  - vm_compute. left.
  - reflexivity.
  - exists s'. split; [exact Hstep|]. split; [exact Hts|exact Hls].
Defined.

Lemma outcome_is_final_witness :
  tasks (disconnect Demo.connected) !! 0
  = Some {| call := Connect;
            phase := Settled (ReturnedInfo {| deviceName := Some "B1-G123"; result := 1 |}) |}.
Proof.
  apply (outcome_is_final Demo.connected (disconnect Demo.connected) InvokeDisconnect 0 _
           (ReturnedInfo {| deviceName := Some "B1-G123"; result := 1 |})).
  - apply (after_reachable []). vm_compute. reflexivity.
  - vm_compute. reflexivity.
  - reflexivity.
  - reflexivity.
Defined.

Lemma no_listener_or_timer_unless_awaiting_witness :
  (0 ∉ packetListeners Demo.pending) /\ step (TimerFired 0) Demo.pending = None.
Proof.
  apply (proj1 (no_listener_or_timer_unless_awaiting Demo.pending pending_reachable) 0
           {| call := Connect;
              phase := Settled (ReturnedInfo {| deviceName := Some "B1-G123";
                                                result := 1 |}) |}).
  - vm_compute. reflexivity.
  - discriminate.
Defined.

Lemma gattserverdisconnected_runs_every_listener_witness :
  exists s',
    step (GattServerDisconnected Demo.printer) Demo.registeredTwice = Some s' /\
    trace s' = trace Demo.registeredTwice
                 ++ [Dispatch DisconnectEvent; Dispatch DisconnectEvent] /\
    isConnected s' = false /\
    disconnectListeners s' = [] /\
    step (GattServerDisconnected Demo.printer) s' = None.
Proof.
  destruct (gattserverdisconnected_runs_every_listener Demo.registeredTwice Demo.printer)
    as (s' & Hstep & Htr & Hcon & _ & Hls & _ & Hnone).
  - vm_compute. left.
  - exists s'. split; [exact Hstep|]. split; [exact Htr|]. split; [exact Hcon|].
    split; [exact Hls|exact Hnone].
Defined.

Lemma connect_without_gatt_witness :
  exists s',
    run [Invoke Connect; Resume 0 (Chosen Demo.bareDevice)] (newClient 10) = Some s' /\
    disconnectListeners s' = [] /\ isConnected s' = false.
Proof.
  destruct (connect_without_gatt (newClient 10) Demo.bareDevice)
    as (s' & Hrun & _ & _ & Hdl & _ & _ & _ & Hcon).
  - reflexivity.
  - exists s'. split; [exact Hrun|]. split; [exact Hdl|exact Hcon].
Defined.

Lemma connect_from_call_to_return_witness :
  exists s',
    run [Invoke Connect; Resume 0 (Chosen Demo.printer); Resume 0 Fulfilled;
         Resume 0 Fulfilled; Resume 0 Fulfilled;
         StoreInfo {| connectResult := None; attributes := [("serial", "G123")] |};
         Resume 0 Fulfilled] (newClient 10) = Some s' /\
    tasks s' !! 0 = Some {| call := Connect;
      phase := Settled (ReturnedInfo {| deviceName := Some "B1-G123"; result := 90 |}) |} /\
    isConnected s' = true.
Proof.
  destruct (connect_from_call_to_return (newClient 10) Demo.printer Demo.printerServer
              Demo.vendorChannel
              {| connectResult := None; attributes := [("serial", "G123")] |})
    as (s' & Hrun & Hk & _ & _ & _ & Hcon & _).
  - reflexivity.
  - reflexivity.
  - exists s'. split; [exact Hrun|]. split; [exact Hk|exact Hcon].
Defined.

Lemma forced_send_leaves_pending_exchange_witness :
  pendingRequest (invoke (SendRaw [x01] true) Demo.pending) 1 Demo.query None /\
  phaseAt (invoke (SendRaw [x01] true) Demo.pending) 2 = Some Sleeping.
Proof.
  destruct (forced_send_leaves_pending_exchange Demo.pending 1 Demo.query None [x01])
    as ((Hp & _ & _ & _ & Hgo) & _).
  - vm_compute. reflexivity.
  - split; [exact Hp|]. exact (proj1 (Hgo Demo.vendorChannel eq_refl)).
Defined.

Lemma pending_request_times_out_after_disconnect_witness :
  exists s',
    run [InvokeDisconnect; Elapse 1000; TimerFired 1] Demo.pending = Some s' /\
    tasks s' !! 1 = Some {| call := SendPacketWaitResponse Demo.query None;
      phase := Settled (Thrown (JsError "Timeout waiting response (waited for 05)")) |} /\
    isConnected s' = false.
Proof.
  destruct (pending_request_times_out_after_disconnect Demo.pending 1 Demo.query None
              1000 1000)
    as (s' & Hrun & Hk & Hcon & _).
  - exact pending_reachable.
  - vm_compute. reflexivity.
  - reflexivity.
  - discriminate.
  - vm_compute. discriminate.
  - exists s'. split; [exact Hrun|]. split; [exact Hk|exact Hcon].
Defined.


End ExtraWitnesses.
